(** * dict_based_learning: the DebugLSTM brick and the definition dictionary

    A shallow embedding of [dictlearn/stuff.py] (class [DebugLSTM]) and of
    the contract of [dictlearn.retrieval.Dictionary] that
    [tests/test_dict.py] exercises.

    The brick builds Theano expressions; what is modelled here is the value
    those expressions denote once evaluated.  Tensor elements are kept
    abstract (class [Scalar]): the transition only needs [+], [*], [-], the
    constants 0 and 1 and the two pluggable activations.  The integers and
    the binary64 floats are instances.  Statements about the mask need a
    few identities of the arithmetic; the class [IEEEArith] lists the ones
    that the floats have, NaN, infinities and signed zeros included. *)

From stdpp Require Import base list gmap strings.
From Stdlib Require Import ZArith Ascii Floats.

(** ** Scalars *)

(** What the brick asks of the elements of its tensors: the constants 0, 1
    and NaN (the content of a parameter between allocation and
    initialization), the three arithmetic operators, and the functions of
    the default activation bricks [Tanh] and [Logistic]. *)
Class Scalar (R : Type) := {
  s0 : R;
  s1 : R;
  snan : R;
  sadd : R → R → R;
  smul : R → R → R;
  ssub : R → R → R;
  stanh : R → R;
  slogistic : R → R;
}.

Infix "⊞" := sadd (at level 50, left associativity).
Infix "⊟" := ssub (at level 50, left associativity).
Infix "⊠" := smul (at level 40, left associativity).

(** How an element is classified: [sfinite] holds of the elements that are
    neither NaN nor infinite, [szero] of the zeros (the floats have two). *)
Class Classify (R : Type) := {
  sfinite : R → bool;
  szero : R → bool;
}.

(** The same element, up to the sign of a zero. *)
Definition ssim {R : Type} `{Classify R} (x y : R) : Prop :=
  x = y ∨ (szero x = true ∧ szero y = true).

Infix "≃" := ssim (at level 70, no associativity).

(** The identities behind the blend [mask * new + (1 - mask) * old], in
    the form in which IEEE arithmetic has them: a zero times a finite
    element is a zero (of some sign), adding a zero changes at most the
    sign of a zero, and multiplying by 1 changes nothing. *)
Class IEEEArith (R : Type) `{Scalar R} `{Classify R} : Prop := {
  szero_s0 : szero (s0 : R) = true;
  ssub_1_0 : s1 ⊟ s0 = s1 :> R;
  ssub_1_1 : s1 ⊟ s1 = s0 :> R;
  smul_1_l : ∀ x : R, s1 ⊠ x = x;
  smul_zero_finite :
    ∀ z x : R, szero z = true → sfinite x = true → szero (z ⊠ x) = true;
  sadd_zero_l : ∀ z x : R, szero z = true → z ⊞ x ≃ x;
  sadd_zero_r : ∀ z x : R, szero z = true → x ⊞ z ≃ x;
}.

(** ** Errors raised while evaluating a Theano graph *)

Inductive exn : Set :=
  | DimensionMismatch   (* ValueError: shapes not aligned / input dimension mis-match *)
  | AttributeError.     (* a parameter is read before the brick is allocated *)

Inductive result (A : Type) : Type :=
  | Ok (a : A)
  | Raise (e : exn).
Arguments Ok {A} a.
Arguments Raise {A} e.

Definition rbind {A B} (r : result A) (k : A → result B) : result B :=
  match r with
  | Ok a => k a
  | Raise e => Raise e
  end.

Notation "x <- e ;; k" := (rbind e (λ x, k))
  (at level 100, e at next level, k at level 200, right associativity,
   format "'[v' x  <-  e ;;  '/' k ']'").

(** ** Tensors *)

(** Whether Theano stretches an axis of length 1 of one operand of an
    element-wise operation to the length the other operand has there; the
    arguments are the shapes of the two operands.  Theano stretches an axis
    that the type of the variable flags as broadcastable (a column
    [x[:, None]], a row); on another axis the compiled function raises or
    not, with the implementation chosen for the operation.  The model
    leaves the answer open. *)
Class Broadcasting := { stretch : list nat → list nat → bool }.

Section Tensor.
Context {R : Type} `{Scalar R} {BC : Broadcasting}.

(** A 2-dimensional array: its rows, with the width kept apart so that
    an array of shape (0, n) still has a second dimension. *)
Record matrix : Type := Matrix { ncols : nat; rows : list (list R) }.

Definition nrows (m : matrix) : nat := length (rows m).
Definition shape (m : matrix) : nat * nat := (nrows m, ncols m).

(** Every row has the declared width. *)
Definition rect (m : matrix) : Prop :=
  Forall (λ r, length r = ncols m) (rows m).

Definition entry (m : matrix) (i j : nat) : option R :=
  rows m !! i ≫= (.!! j).

(** Total readers, used to state per-element formulas inside the bounds. *)
Definition mat_at (m : matrix) (i j : nat) : R := default s0 (entry m i j).
Definition vec_at (v : list R) (j : nat) : R := default s0 (v !! j).

Definition vtab (c : nat) (g : nat → R) : list R := g <$> seq 0 c.
Definition mtab (n c : nat) (g : nat → nat → R) : matrix :=
  Matrix c ((λ i, vtab c (g i)) <$> seq 0 n).

(** *** Theano operations *)

(** [r . b] for one row [r]: the sum over [k] of [r[k] * b[k, :]]. *)
Definition vec_mat (r : list R) (b : matrix) : list R :=
  foldr (λ xw acc, zip_with sadd (smul xw.1 <$> xw.2) acc)
        (replicate (ncols b) s0) (zip r (rows b)).

(** [tensor.dot(a, b)] on two matrices. *)
Definition dot (a b : matrix) : result matrix :=
  if decide (ncols a = nrows b)
  then Ok (Matrix (ncols b) ((λ r, vec_mat r b) <$> rows a))
  else Raise DimensionMismatch.

(** Two lengths of one axis that an element-wise operation can bring
    together, and the length that results. *)
Definition fits (k n : nat) : bool :=
  bool_decide (k = n) || bool_decide (k = 1) || bool_decide (n = 1).

Definition axis (k n : nat) : nat := if decide (k = 1) then n else k.

(** A list of length 1 repeated [n] times; any other list as it is. *)
Definition stretch_to {A : Type} (n : nat) (l : list A) : list A :=
  match l with
  | [x] => replicate n x
  | _ => l
  end.

Definition expand (n c : nat) (a : matrix) : list (list R) :=
  stretch_to n (stretch_to c <$> rows a).

(** An element-wise operator on two matrices.  On equal shapes it works
    entry by entry.  Shapes that differ on an axis where neither length is
    1 are an error; where one length is 1, the operand is stretched if
    Theano does so ([stretch]) and the operation fails otherwise. *)
Definition elemwise (f : R → R → R) (a b : matrix) : result matrix :=
  if decide (shape a = shape b)
  then Ok (Matrix (ncols a) (zip_with (zip_with f) (rows a) (rows b)))
  else if fits (nrows a) (nrows b) && fits (ncols a) (ncols b)
          && stretch [nrows a; ncols a] [nrows b; ncols b]
  then
    let n := axis (nrows a) (nrows b) in
    let c := axis (ncols a) (ncols b) in
    Ok (Matrix c (zip_with (zip_with f) (expand n c a) (expand n c b)))
  else Raise DimensionMismatch.

(** [a op v] for a matrix and a vector: the vector is padded on the left
    to shape (1, len v) and broadcast along the rows; the widths are
    treated as in [elemwise]. *)
Definition elemwise_row (f : R → R → R) (a : matrix) (v : list R)
  : result matrix :=
  if decide (ncols a = length v)
  then Ok (Matrix (ncols a) ((λ r, zip_with f r v) <$> rows a))
  else if fits (ncols a) (length v)
          && stretch [nrows a; ncols a] [1; length v]
  then
    let c := axis (ncols a) (length v) in
    Ok (Matrix c ((λ r, zip_with f (stretch_to c r) (stretch_to c v))
                  <$> rows a))
  else Raise DimensionMismatch.

(** [m[:, None] op a]: the column [m[:, None]] has shape (len m, 1) and is
    broadcast along the columns; the numbers of rows are treated as in
    [elemwise]. *)
Definition elemwise_col (f : R → R → R) (m : list R) (a : matrix)
  : result matrix :=
  if decide (length m = nrows a)
  then Ok (Matrix (ncols a) (zip_with (λ x r, f x <$> r) m (rows a)))
  else if fits (length m) (nrows a)
          && stretch [length m; 1] [nrows a; ncols a]
  then
    let n := axis (length m) (nrows a) in
    Ok (Matrix (ncols a)
          (zip_with (λ x r, f x <$> r) (stretch_to n m)
             (stretch_to n (rows a))))
  else Raise DimensionMismatch.

(** [1 - m[:, None]], kept as the vector of its single column. *)
Definition one_minus (m : list R) : list R := ssub s1 <$> m.

(** [brick.apply(x)] for an activation brick: element-wise. *)
Definition brick_apply (f : R → R) (x : matrix) : matrix :=
  Matrix (ncols x) ((λ r : list R, f <$> r) <$> rows x).

(** [tensor.repeat(v[None, :], n, 0)]. *)
Definition repeat_rows (v : list R) (n : nat) : matrix :=
  Matrix (length v) (replicate n v).

(** ** The brick *)

(** The value held by a Theano shared variable. *)
Inductive shared : Type :=
  | SVec (v : list R)
  | SMat (m : matrix).

(** [parameters] is [self.parameters]; the attributes [W_state],
    [W_cell_to_in], ... are the same shared variables, in the order in
    which [_allocate] lists them. *)
Record DebugLSTM : Type := {
  dim : nat;
  activation : R → R;
  gate_activation : R → R;
  parameters : list shared;
}.

Definition attr_mat (self : DebugLSTM) (i : nat) : result matrix :=
  match parameters self !! i with
  | Some (SMat m) => Ok m
  | _ => Raise AttributeError
  end.

Definition attr_vec (self : DebugLSTM) (i : nat) : result (list R) :=
  match parameters self !! i with
  | Some (SVec v) => Ok v
  | _ => Raise AttributeError
  end.

Definition W_state (self : DebugLSTM) := attr_mat self 0.
Definition W_cell_to_in (self : DebugLSTM) := attr_vec self 1.
Definition W_cell_to_forget (self : DebugLSTM) := attr_vec self 2.
Definition W_cell_to_out (self : DebugLSTM) := attr_vec self 3.
Definition initial_state_ (self : DebugLSTM) := attr_vec self 4.
Definition initial_cells (self : DebugLSTM) := attr_vec self 5.

(** [__init__]: the brick is configured, nothing is allocated yet.  An
    activation that is not given defaults to [Tanh()], a gate activation
    to [Logistic()]. *)
Definition init (d : nat) (activation gate_activation : option (R → R))
  : DebugLSTM :=
  {| dim := d;
     activation := default stanh activation;
     gate_activation := default slogistic gate_activation;
     parameters := [] |}.

(** [get_dim], for the names the brick answers itself. *)
Inductive dim_name : Set := Inputs | States | Cells | Mask.

Definition get_dim (self : DebugLSTM) (name : dim_name) : nat :=
  match name with
  | Inputs => dim self * 4
  | States | Cells => dim self
  | Mask => 0
  end.

(** [shared_floatx_nans] and [shared_floatx_zeros]. *)
Definition nans_matrix (n c : nat) : matrix :=
  Matrix c (replicate n (replicate c snan)).
Definition nans_vector (c : nat) : list R := replicate c snan.
Definition zeros_vector (c : nat) : list R := replicate c s0.

Definition _allocate (self : DebugLSTM) : DebugLSTM :=
  {| dim := dim self; activation := activation self;
     gate_activation := gate_activation self;
     parameters :=
       [ SMat (nans_matrix (dim self) (4 * dim self));
         SVec (nans_vector (dim self));
         SVec (nans_vector (dim self));
         SVec (nans_vector (dim self));
         SVec (zeros_vector (dim self));
         SVec (zeros_vector (dim self)) ] |}.

(** [_initialize]: [weights_init.initialize(weights, rng)] overwrites the
    value of one shared variable and advances the generator.  The loop
    runs over [self.parameters[:4]]. *)
Section Initialize.
Context {Rng : Type}.
Variable weights_init : shared → Rng → shared * Rng.

Fixpoint init_loop (ws : list shared) (rng : Rng) : list shared * Rng :=
  match ws with
  | [] => ([], rng)
  | w :: ws' =>
      let '(w', rng') := weights_init w rng in
      let '(ws'', rng'') := init_loop ws' rng' in
      (w' :: ws'', rng'')
  end.

Definition _initialize (self : DebugLSTM) (rng : Rng) : DebugLSTM * Rng :=
  let '(ws, rng') := init_loop (take 4 (parameters self)) rng in
  ({| dim := dim self; activation := activation self;
      gate_activation := gate_activation self;
      parameters := ws ++ drop 4 (parameters self) |}, rng').
End Initialize.

(** [slice_last(x, no)] is [x[:, no*dim : (no+1)*dim]]; a Python slice
    clips at the end of the axis and never raises. *)
Definition slice_last (self : DebugLSTM) (x : matrix) (no : nat) : matrix :=
  let lo := no * dim self in
  let hi := (no + 1) * dim self in
  Matrix (hi `min` ncols x - lo `min` ncols x)
         ((λ r, take (hi - lo) (drop lo r)) <$> rows x).

(** [if mask:] on a Theano variable is true (only [None] is false), so
    the blend is applied exactly when a mask is passed. *)
Definition apply_mask (mask : option (list R)) (new old : matrix)
  : result matrix :=
  match mask with
  | Some m =>
      a <- elemwise_col smul m new;;
      b <- elemwise_col smul (one_minus m) old;;
      elemwise sadd a b
  | None => Ok new
  end.

(** The body of [inner_apply]: one transition, what the decorated method
    computes when called with [iterate=False] and what the recurrent
    wrapper of Blocks repeats for every time step. *)
Definition inner_apply (self : DebugLSTM)
    (inputs states cells : matrix) (mask : option (list R))
  : result (matrix * matrix * matrix * matrix * matrix) :=
  W <- W_state self;;
  hW <- dot states W;;
  activation_ <- elemwise sadd hW inputs;;
  wi <- W_cell_to_in self;;
  ci <- elemwise_row smul cells wi;;
  pre_in <- elemwise sadd (slice_last self activation_ 0) ci;;
  let in_gate := brick_apply (gate_activation self) pre_in in
  wf <- W_cell_to_forget self;;
  cf <- elemwise_row smul cells wf;;
  pre_forget <- elemwise sadd (slice_last self activation_ 1) cf;;
  let forget_gate := brick_apply (gate_activation self) pre_forget in
  keep <- elemwise smul forget_gate cells;;
  write <- elemwise smul in_gate
             (brick_apply (activation self) (slice_last self activation_ 2));;
  next_cells <- elemwise sadd keep write;;
  wo <- W_cell_to_out self;;
  co <- elemwise_row smul next_cells wo;;
  pre_out <- elemwise sadd (slice_last self activation_ 3) co;;
  let out_gate := brick_apply (gate_activation self) pre_out in
  next_states <- elemwise smul out_gate
                   (brick_apply (activation self) next_cells);;
  next_states' <- apply_mask mask next_states states;;
  next_cells' <- apply_mask mask next_cells cells;;
  Ok (next_states', next_cells', in_gate, forget_gate, out_gate).

Definition initial_states (self : DebugLSTM) (batch_size : nat)
  : result (matrix * matrix) :=
  h0 <- initial_state_ self;;
  c0 <- initial_cells self;;
  Ok (repeat_rows h0 batch_size, repeat_rows c0 batch_size).

(** *** Well-formed bricks and batches *)

(** The brick has been allocated: the six shared variables exist, with
    the shapes [_allocate] gives them. *)
Definition allocated (self : DebugLSTM) : Prop :=
  ∃ W wi wf wo h0 c0,
    parameters self = [SMat W; SVec wi; SVec wf; SVec wo; SVec h0; SVec c0] ∧
    shape W = (dim self, 4 * dim self) ∧ rect W ∧
    length wi = dim self ∧ length wf = dim self ∧ length wo = dim self ∧
    length h0 = dim self ∧ length c0 = dim self.

(** A batch of [n] rows of the shapes the docstring of [inner_apply] asks
    for. *)
Definition valid_step (self : DebugLSTM) (n : nat)
    (inputs states cells : matrix) : Prop :=
  rect inputs ∧ shape inputs = (n, get_dim self Inputs) ∧
  rect states ∧ shape states = (n, get_dim self States) ∧
  rect cells ∧ shape cells = (n, get_dim self Cells).

(** A mask, when given, has one element per batch row. *)
Definition valid_mask (n : nat) (mask : option (list R)) : Prop :=
  match mask with
  | Some m => length m = n
  | None => True
  end.

(** The numpy shape of the value of a shared variable, and whether the
    value is a proper array. *)
Definition shared_shape (p : shared) : list nat :=
  match p with
  | SVec v => [length v]
  | SMat m => [nrows m; ncols m]
  end.

Definition shared_proper (p : shared) : Prop :=
  match p with
  | SVec _ => True
  | SMat m => rect m
  end.

(** An initialization scheme fills a shared variable with an array of the
    shape the variable already has. *)
Definition shape_preserving {Rng : Type}
    (weights_init : shared → Rng → shared * Rng) : Prop :=
  ∀ p rng,
    shared_shape (weights_init p rng).1 = shared_shape p ∧
    shared_proper (weights_init p rng).1.

End Tensor.

Arguments matrix R : clear implicits.
Arguments shared R : clear implicits.
Arguments DebugLSTM R : clear implicits.

(** ** Finite entries, and matrices equal up to the sign of zeros *)

Section Special.
Context {R : Type} `{Classify R}.

Definition all_finite (m : matrix R) : Prop :=
  Forall (Forall (λ x, sfinite x = true)) (rows m).

Definition msim (a b : matrix R) : Prop :=
  ncols a = ncols b ∧ Forall2 (Forall2 ssim) (rows a) (rows b).

End Special.

(** ** The two ways Theano can treat an axis of length 1 *)

(** No operand has a broadcastable axis besides those the code makes
    itself ([mask[:, None]], the padded peephole vectors), and the compiled
    function checks the shapes: a mismatch always raises. *)
Definition unflagged : Broadcasting := {| stretch _ _ := false |}.

(** Every axis of length 1 is stretched, as for operands whose types flag
    those axes as broadcastable. *)
Definition flagged : Broadcasting := {| stretch _ _ := true |}.

(** ** Integers as exact scalars, for running the model *)

(** Piecewise-linear stand-ins for the logistic and tanh functions. *)
Definition hard_sigmoid (x : Z) : Z := Z.max 0 (Z.min 1 x).
Definition hard_tanh (x : Z) : Z := Z.max (-1) (Z.min 1 x).

(** The integers have no NaN; 0 takes its place in a fresh parameter. *)
#[export] Instance Z_scalar : Scalar Z :=
  {| s0 := 0%Z; s1 := 1%Z; snan := 0%Z;
     sadd := Z.add; smul := Z.mul; ssub := Z.sub;
     stanh := hard_tanh; slogistic := hard_sigmoid |}.

(** Every integer is finite and there is one zero. *)
#[export] Instance Z_classify : Classify Z :=
  {| sfinite := λ _, true; szero := Z.eqb 0 |}.

(** ** Binary64 floats, the arithmetic of [floatX = float64] *)

(** The primitive floats have no exponential.  For the default activations
    the rational functions [x / (1 + |x|)] and half of 1 plus it stand in
    for tanh and the logistic function; like them they are bounded,
    increasing and send NaN to NaN. *)
Definition softsign (x : float) : float := (x / (1 + abs x))%float.
Definition soft_logistic (x : float) : float := ((1 + softsign x) / 2)%float.

#[export] Instance float_scalar : Scalar float :=
  {| s0 := 0%float; s1 := 1%float; snan := nan;
     sadd := PrimFloat.add; smul := PrimFloat.mul; ssub := PrimFloat.sub;
     stanh := softsign; slogistic := soft_logistic |}.

Definition float_finite (x : float) : bool :=
  match Prim2SF x with
  | S754_zero _ | S754_finite _ _ _ => true
  | _ => false
  end.

Definition float_zero (x : float) : bool :=
  match Prim2SF x with
  | S754_zero _ => true
  | _ => false
  end.

#[export] Instance float_classify : Classify float :=
  {| sfinite := float_finite; szero := float_zero |}.

(** The mantissa [m] followed by 52 zero bits: the product of [m] and the
    mantissa of the float 1. *)
Definition shift52 (m : positive) : positive :=
  (m~0~0~0~0~0~0~0~0~0~0~0~0~0~0~0~0~0~0~0~0~0~0~0~0~0~0
    ~0~0~0~0~0~0~0~0~0~0~0~0~0~0~0~0~0~0~0~0~0~0~0~0~0~0)%positive.

(** ** The definition dictionary *)

(** A definition is a sequence of tokens; a dictionary maps a word or a
    phrase to its definitions. *)
Abbreviation Dictionary := (gmap string (list (list string))).

(** Modelled from the spec: [dictlearn.retrieval.Dictionary] is not among
    the sources (only [tests/test_dict.py] uses it).  Loading yields the
    key to list-of-definitions mapping of the persisted file; as in a JSON
    object, a key that occurs twice keeps its last value. *)
Definition load (entries : list (string * list (list string))) : Dictionary :=
  foldl (λ d kv, <[kv.1 := kv.2]> d) ∅ entries.

(** Modelled from the spec: a query is a string "possibly containing
    multiple whitespace-separated tokens"; these are the blanks. *)
Definition is_space (c : Ascii.ascii) : bool :=
  bool_decide (c = " "%char) || bool_decide (c = "009"%char)
  || bool_decide (c = "010"%char) || bool_decide (c = "013"%char).

(** Modelled from the spec: the whitespace-separated tokens of a query;
    [cur] is the token being read, reversed. *)
Fixpoint tokens_from (cur : string) (s : string) : list string :=
  match s with
  | EmptyString =>
      match cur with
      | EmptyString => []
      | _ => [String.rev cur]
      end
  | String c s' =>
      if is_space c then
        match cur with
        | EmptyString => tokens_from EmptyString s'
        | _ => String.rev cur :: tokens_from EmptyString s'
        end
      else tokens_from (String c cur) s'
  end.

Definition tokens (query : string) : list string :=
  tokens_from EmptyString query.

(** Modelled from the spec: the single-word lookup, empty for a word that
    has no entry. *)
Definition lookup_word (d : Dictionary) (w : string) : list (list string) :=
  default [] (d !! w).


Section Retrieval.
(** How the single-word results of a multi-token query are put together is
    an open question of the spec, so it stays a parameter. *)
Variable merge : list (list (list string)) → list (list string).

(** Modelled from the spec: [Dictionary.get_definitions] is not among the
    sources.  The whole query is looked up as a phrase key first; only
    when there is no such key does the lookup fall back to the single
    words of the query. *)
Definition get_definitions (d : Dictionary) (query : string)
  : list (list string) :=
  match d !! query with
  | Some defs => defs
  | None => merge (lookup_word d <$> tokens query)
  end.
End Retrieval.

(** Modelled from the spec: [tests.test_util.TEST_DICT_JSON], the content
    of the dictionary file of [test_dict], is not among the sources; these
    are the entries the spec lists for the test. *)
Definition TEST_DICT_JSON : list (string * list (list string)) :=
  [ ("a", [["b"; "c"]; ["d"; "e"]]); ("d c", [["a"; "b"]]) ]%string.

(** ** A small brick on integers *)

Definition demo_brick : DebugLSTM Z :=
  {| dim := 2; activation := hard_tanh; gate_activation := hard_sigmoid;
     parameters :=
       [ SMat (Matrix 8 [ [1; 0; -1; 2; 0; 1; 1; -2];
                          [0; 1; 1; -1; 2; 0; -1; 1] ]);
         SVec [1; -1]; SVec [2; 0]; SVec [-1; 1];
         SVec [0; 0]; SVec [0; 0] ]%Z |}.

Definition demo_inputs : matrix Z :=
  Matrix 8 [ [0; 1; 0; -1; 1; 0; 2; 0]; [1; 0; -2; 0; 0; 3; 0; 1] ]%Z.
Definition demo_states : matrix Z := Matrix 2 [ [0; 1]; [1; 1] ]%Z.
Definition demo_cells : matrix Z := Matrix 2 [ [1; -1]; [2; 0] ]%Z.

(** The same batch with one input column missing. *)
Definition demo_inputs_narrow : matrix Z :=
  Matrix 7 [ [0; 1; 0; -1; 1; 0; 2]; [1; 0; -2; 0; 0; 3; 0] ]%Z.

(** An initialization scheme on integers: the variable gets a new array
    of its shape, filled with the current value of a counter, which is
    then advanced. *)
Definition demo_weights_init (p : shared Z) (rng : Z) : shared Z * Z :=
  match p with
  | SVec v => (SVec (replicate (length v) rng), (rng + 1)%Z)
  | SMat m =>
      (SMat (Matrix (ncols m) (replicate (nrows m) (replicate (ncols m) rng))),
       (rng + 1)%Z)
  end.

(** The inputs as a single column, one value per batch row. *)
Definition demo_inputs_column : matrix Z := Matrix 1 [ [1]; [-2] ]%Z.

(** ** Bricks on floats *)

(** A brick of width 1 with the default activations and small weights,
    and a batch of two rows. *)
Definition float_brick : DebugLSTM float :=
  {| dim := 1; activation := stanh; gate_activation := slogistic;
     parameters :=
       [ SMat (Matrix 4 [ [0.5; -0.25; 1; 0.75] ]);
         SVec [0.5]; SVec [-1]; SVec [0.25];
         SVec [0]; SVec [0] ]%float |}.

Definition float_inputs : matrix float :=
  Matrix 4 [ [1; -0.5; 0.25; 2]; [-1; 0.75; 0; 0.5] ]%float.
Definition float_states : matrix float := Matrix 1 [ [0.5]; [-0.25] ]%float.
Definition float_cells : matrix float := Matrix 1 [ [1.5]; [0] ]%float.

(** The same brick after training has driven two weights to 2^1023,
    which is finite, and a batch of one row of small numbers. *)
Definition float_brick_large : DebugLSTM float :=
  {| dim := 1; activation := stanh; gate_activation := slogistic;
     parameters :=
       [ SMat (Matrix 4 [ [0x1p1023; 0; 0; 0] ]);
         SVec [0x1p1023]; SVec [0]; SVec [0];
         SVec [0]; SVec [0] ]%float |}.

Definition float_inputs_one : matrix float := Matrix 4 [ [0; 0; 0; 0] ]%float.
Definition float_states_one : matrix float := Matrix 1 [ [10] ]%float.
Definition float_cells_one : matrix float := Matrix 1 [ [-10] ]%float.

(** A brick with identity activations (the [Identity] brick of Blocks),
    and a previous state that an earlier step has driven to infinity. *)
Definition float_brick_identity : DebugLSTM float :=
  {| dim := 1; activation := id; gate_activation := id;
     parameters :=
       [ SMat (Matrix 4 [ [1; 1; 1; 1] ]);
         SVec [1]; SVec [1]; SVec [1];
         SVec [0]; SVec [0] ]%float |}.

Definition float_inputs_ones : matrix float := Matrix 4 [ [1; 1; 1; 1] ]%float.
Definition float_states_inf : matrix float := Matrix 1 [ [infinity] ]%float.
Definition float_cells_ones : matrix float := Matrix 1 [ [1] ]%float.

(** ** The arithmetic of the integers and of the floats *)

#[export] Instance Z_ieee : IEEEArith Z.
Proof.
  split; unfold ssim; cbn.
  - done.
  - done.
  - done.
  - intros x. by destruct x.
  - intros z x Hz _. by destruct z.
  - intros z x Hz. destruct z; try done. by left.
  - intros z x Hz. destruct z; try done. left. apply Z.add_0_r.
Qed.

Lemma digits_shift52 (m : positive) :
  Zpos (digits2_pos (shift52 m)) = (Zpos (digits2_pos m) + 52)%Z.
Proof. unfold shift52. cbn [digits2_pos]. rewrite !Pos2Z.inj_succ. lia. Qed.

(** Shifting [shift52 m] back by 52 bits is exact. *)
Lemma shr_fexp_shift52 (m : positive) (e : Z) :
  fexp prec emax (Zpos (digits2_pos m) + e) = e →
  shr_fexp prec emax (Zpos (shift52 m)) (-52 + e) loc_Exact
  = ({| shr_m := Zpos m; shr_r := false; shr_s := false |}, e).
Proof.
  intros Hc. unfold shr_fexp, Zdigits2. rewrite digits_shift52.
  replace (Zpos (digits2_pos m) + 52 + (-52 + e))%Z
    with (Zpos (digits2_pos m) + e)%Z by lia.
  rewrite Hc. replace (e - (-52 + e))%Z with 52%Z by lia.
  unfold shift52. cbn [shr shr_record_of_loc iter_pos shr_1 orb].
  f_equal. lia.
Qed.

Lemma shr_fexp_canonical (m : positive) (e : Z) :
  fexp prec emax (Zpos (digits2_pos m) + e) = e →
  shr_fexp prec emax (Zpos m) e loc_Exact
  = ({| shr_m := Zpos m; shr_r := false; shr_s := false |}, e).
Proof.
  intros Hc. unfold shr_fexp, Zdigits2. by rewrite Hc, Z.sub_diag.
Qed.

Lemma SFmul_1_l (x : spec_float) :
  valid_binary x = true → SF64mul (Prim2SF 1%float) x = x.
Proof.
  change (Prim2SF 1%float) with (S754_finite false 4503599627370496 (-52)).
  destruct x as [s|s| |s m e]; try reflexivity.
  unfold SpecFloat.valid_binary, bounded, canonical_mantissa. intros Hv.
  apply andb_prop in Hv as [Hc He]. apply Z.eqb_eq in Hc.
  unfold SF64mul, SFmul. cbn [xorb]. unfold binary_round_aux.
  change (4503599627370496 * m)%positive with (shift52 m).
  rewrite (shr_fexp_shift52 m e Hc).
  cbn [shr_m loc_of_shr_record round_nearest_even].
  rewrite (shr_fexp_canonical m e Hc). cbn [shr_m].
  by rewrite He.
Qed.

(** Multiplication by 1 is exact on every float, NaN and the infinities
    included. *)
Lemma float_mul_1_l (x : float) : (1 * x)%float = x.
Proof.
  apply Prim2SF_inj. rewrite mul_spec. apply SFmul_1_l, Prim2SF_valid.
Qed.

Lemma float_mul_zero_finite (z x : float) :
  float_zero z = true → float_finite x = true →
  float_zero (z * x)%float = true.
Proof.
  unfold float_zero, float_finite. rewrite mul_spec.
  by destruct (Prim2SF z), (Prim2SF x).
Qed.

Lemma float_add_zero_l (z x : float) :
  float_zero z = true → (z + x)%float ≃ x.
Proof.
  unfold ssim. cbn. unfold float_zero. intros Hz.
  destruct (Prim2SF z) as [sz| | |] eqn:Ez; try done.
  destruct (Prim2SF x) as [sx|sx| |sx mx ex] eqn:Ex.
  - right. rewrite add_spec, Ez, Ex. by destruct sz, sx.
  - left. apply Prim2SF_inj. by rewrite add_spec, Ez, Ex.
  - left. apply Prim2SF_inj. by rewrite add_spec, Ez, Ex.
  - left. apply Prim2SF_inj. by rewrite add_spec, Ez, Ex.
Qed.

Lemma float_add_zero_r (z x : float) :
  float_zero z = true → (x + z)%float ≃ x.
Proof.
  unfold ssim. cbn. unfold float_zero. intros Hz.
  destruct (Prim2SF z) as [sz| | |] eqn:Ez; try done.
  destruct (Prim2SF x) as [sx|sx| |sx mx ex] eqn:Ex.
  - right. rewrite add_spec, Ez, Ex. by destruct sz, sx.
  - left. apply Prim2SF_inj. by rewrite add_spec, Ez, Ex.
  - left. apply Prim2SF_inj. by rewrite add_spec, Ez, Ex.
  - left. apply Prim2SF_inj. by rewrite add_spec, Ez, Ex.
Qed.

(** The floats have the identities of [IEEEArith]. *)
#[export] Instance float_ieee : IEEEArith float.
Proof.
  split.
  - reflexivity.
  - reflexivity.
  - reflexivity.
  - exact float_mul_1_l.
  - exact float_mul_zero_finite.
  - exact float_add_zero_l.
  - exact float_add_zero_r.
Qed.

Section Blend.
Context {R : Type} `{IEEEArith R}.

Lemma ssim_refl (x : R) : x ≃ x.
Proof. by left. Qed.

(** With mask 0 the blend keeps the old element, if the new one is finite. *)
Lemma blend_zero (new old : R) :
  sfinite new = true → s0 ⊠ new ⊞ (s1 ⊟ s0) ⊠ old ≃ old.
Proof.
  intros Hnew. rewrite ssub_1_0, smul_1_l. apply sadd_zero_l.
  apply smul_zero_finite; [apply szero_s0 | done].
Qed.

(** With mask 1 the blend takes the new element, if the old one is finite. *)
Lemma blend_one (new old : R) :
  sfinite old = true → s1 ⊠ new ⊞ (s1 ⊟ s1) ⊠ old ≃ new.
Proof.
  intros Hold. rewrite ssub_1_1, smul_1_l. apply sadd_zero_r.
  apply smul_zero_finite; [apply szero_s0 | done].
Qed.

End Blend.

(** ** Facts about tabulated vectors and matrices *)

Section TensorFacts.
Context {R : Type} `{Scalar R} {BC : Broadcasting}.
Implicit Types (m a b : matrix R) (v w r : list R) (f : R → R → R).

Lemma length_vtab c (g : nat → R) : length (vtab c g) = c.
Proof. unfold vtab. by rewrite length_fmap, length_seq. Qed.

Lemma vtab_lookup c (g : nat → R) j : j < c → vtab c g !! j = Some (g j).
Proof.
  intros Hj. unfold vtab. rewrite list_lookup_fmap, lookup_seq_lt by done.
  done.
Qed.

Lemma vtab_ext c (g g' : nat → R) :
  (∀ j, j < c → g j = g' j) → vtab c g = vtab c g'.
Proof.
  intros Hg. unfold vtab. apply list_fmap_ext.
  intros i x Hx. apply lookup_seq in Hx as [-> ?]. by apply Hg.
Qed.

Lemma mtab_ext n c (g g' : nat → nat → R) :
  (∀ i j, i < n → j < c → g i j = g' i j) → mtab n c g = mtab n c g'.
Proof.
  intros Hg. unfold mtab. f_equal. apply list_fmap_ext.
  intros i x Hx. apply lookup_seq in Hx as [-> ?].
  apply vtab_ext. intros j Hj. by apply Hg.
Qed.

Lemma nrows_mtab n c (g : nat → nat → R) : nrows (mtab n c g) = n.
Proof. unfold nrows, mtab. simpl. by rewrite length_fmap, length_seq. Qed.

Lemma shape_mtab n c (g : nat → nat → R) : shape (mtab n c g) = (n, c).
Proof. unfold shape. by rewrite nrows_mtab. Qed.

Lemma rect_mtab n c (g : nat → nat → R) : rect (mtab n c g).
Proof.
  unfold rect, mtab. simpl. apply Forall_fmap, Forall_forall.
  intros i _. simpl. apply length_vtab.
Qed.

Lemma vec_at_vtab c (g : nat → R) j : j < c → vec_at (vtab c g) j = g j.
Proof. intros Hj. unfold vec_at. by rewrite vtab_lookup. Qed.

Lemma entry_mtab n c (g : nat → nat → R) i j :
  i < n → j < c → entry (mtab n c g) i j = Some (g i j).
Proof.
  intros Hi Hj. unfold entry, mtab. simpl.
  rewrite list_lookup_fmap, lookup_seq_lt by done. simpl.
  by apply vtab_lookup.
Qed.

Lemma mat_at_mtab n c (g : nat → nat → R) i j :
  i < n → j < c → mat_at (mtab n c g) i j = g i j.
Proof. intros Hi Hj. unfold mat_at. by rewrite entry_mtab. Qed.

(** A vector is the table of its elements. *)
Lemma vec_tab v : v = vtab (length v) (vec_at v).
Proof.
  apply list_eq. intros j. destruct (decide (j < length v)) as [Hj|Hj].
  - rewrite vtab_lookup by done. unfold vec_at.
    destruct (lookup_lt_is_Some_2 v j Hj) as [x ->]. done.
  - rewrite !lookup_ge_None_2; [done | rewrite length_vtab; lia | lia].
Qed.

Lemma vec_tab_len v c : length v = c → v = vtab c (vec_at v).
Proof. intros <-. apply vec_tab. Qed.

(** A rectangular matrix is the table of its entries. *)
Lemma mat_tab m : rect m → m = mtab (nrows m) (ncols m) (mat_at m).
Proof.
  intros Hm. destruct m as [c rs]. unfold mtab, nrows, rect in *. simpl in *.
  f_equal. apply list_eq. intros i.
  rewrite list_lookup_fmap.
  destruct (decide (i < length rs)) as [Hi|Hi].
  - rewrite lookup_seq_lt by done. simpl.
    destruct (lookup_lt_is_Some_2 rs i Hi) as [r Hr]. rewrite Hr. f_equal.
    rewrite Forall_lookup in Hm. specialize (Hm i r Hr). simpl in Hm.
    rewrite (vec_tab r) at 1. rewrite Hm. apply vtab_ext. intros j Hj.
    unfold mat_at, entry, vec_at. simpl. by rewrite Hr.
  - rewrite lookup_ge_None_2 by lia.
    rewrite lookup_ge_None_2; [done | rewrite length_seq; lia].
Qed.

Lemma mat_tab_shape m n c :
  rect m → shape m = (n, c) → m = mtab n c (mat_at m).
Proof. intros Hm [= <- <-]. by apply mat_tab. Qed.

Lemma zip_with_fmap_same {A B C D} (h : B → C → D) (p : A → B) (q : A → C)
    (l : list A) :
  zip_with h (p <$> l) (q <$> l) = (λ x, h (p x) (q x)) <$> l.
Proof. induction l as [|x l IH]; csimpl; [done | by f_equal]. Qed.

Lemma zip_with_vtab f c (g g' : nat → R) :
  zip_with f (vtab c g) (vtab c g') = vtab c (λ j, f (g j) (g' j)).
Proof. apply zip_with_fmap_same. Qed.

Lemma fmap_vtab (h : R → R) c (g : nat → R) :
  h <$> vtab c g = vtab c (λ j, h (g j)).
Proof. unfold vtab. by rewrite <- list_fmap_compose. Qed.

Lemma elemwise_mtab f n c (g g' : nat → nat → R) :
  elemwise f (mtab n c g) (mtab n c g')
  = Ok (mtab n c (λ i j, f (g i j) (g' i j))).
Proof.
  unfold elemwise. rewrite !shape_mtab, decide_True by done.
  unfold mtab. cbn [rows ncols]. do 2 f_equal. rewrite zip_with_fmap_same.
  apply list_fmap_ext. intros i x _. apply zip_with_vtab.
Qed.

Lemma elemwise_row_mtab f n c (g : nat → nat → R) (w : nat → R) :
  elemwise_row f (mtab n c g) (vtab c w)
  = Ok (mtab n c (λ i j, f (g i j) (w j))).
Proof.
  unfold elemwise_row. rewrite length_vtab. simpl.
  rewrite decide_True by done. unfold mtab. cbn [rows ncols]. do 2 f_equal.
  rewrite <- list_fmap_compose. apply list_fmap_ext. intros i x _.
  apply zip_with_vtab.
Qed.

Lemma elemwise_col_mtab f n c (k : nat → R) (g : nat → nat → R) :
  elemwise_col f (vtab n k) (mtab n c g)
  = Ok (mtab n c (λ i j, f (k i) (g i j))).
Proof.
  unfold elemwise_col. rewrite length_vtab, nrows_mtab.
  rewrite decide_True by done. unfold mtab. cbn [rows ncols]. do 2 f_equal.
  change (vtab n k) with (k <$> seq 0 n). rewrite zip_with_fmap_same. apply list_fmap_ext. intros i x _.
  apply fmap_vtab.
Qed.

Lemma one_minus_vtab n (k : nat → R) :
  one_minus (vtab n k) = vtab n (λ i, s1 ⊟ k i).
Proof. apply fmap_vtab. Qed.

Lemma brick_apply_mtab (h : R → R) n c (g : nat → nat → R) :
  brick_apply h (mtab n c g) = mtab n c (λ i j, h (g i j)).
Proof.
  unfold brick_apply, mtab. cbn [rows ncols]. f_equal.
  rewrite <- list_fmap_compose. apply list_fmap_ext. intros i x _.
  apply fmap_vtab.
Qed.

Lemma take_drop_vtab lo hi c (g : nat → R) :
  lo ≤ hi →
  take (hi - lo) (drop lo (vtab c g))
  = vtab (hi `min` c - lo `min` c) (λ j, g (lo + j)).
Proof.
  intros Hle. apply list_eq. intros j.
  destruct (decide (j < hi `min` c - lo `min` c)) as [Hj|Hj].
  - rewrite lookup_take_lt, lookup_drop by lia.
    rewrite !vtab_lookup by lia. done.
  - rewrite (lookup_ge_None_2 (vtab _ _)) by (rewrite length_vtab; lia).
    destruct (decide (j < hi - lo)) as [Hk|Hk].
    + rewrite lookup_take_lt, lookup_drop by done.
      apply lookup_ge_None_2. rewrite length_vtab. lia.
    + apply lookup_take_ge. lia.
Qed.

Lemma slice_last_mtab (self : DebugLSTM R) n c (g : nat → nat → R) no :
  slice_last self (mtab n c g) no
  = mtab n (((no + 1) * dim self) `min` c - (no * dim self) `min` c)
         (λ i j, g i (no * dim self + j)).
Proof.
  unfold slice_last, mtab. cbn [rows ncols]. f_equal.
  rewrite <- list_fmap_compose. apply list_fmap_ext. intros i x _.
  apply take_drop_vtab. lia.
Qed.

(** With a width of [4 * dim], chunk [no < 4] is [dim] wide. *)
Lemma slice_last_mtab4 (self : DebugLSTM R) n (g : nat → nat → R) no :
  no < 4 →
  slice_last self (mtab n (4 * dim self) g) no
  = mtab n (dim self) (λ i j, g i (no * dim self + j)).
Proof.
  intros Hno. rewrite slice_last_mtab. f_equal. nia.
Qed.

Lemma length_vec_mat r b : rect b → length (vec_mat r b) = ncols b.
Proof.
  unfold rect, vec_mat. generalize (ncols b) as c. generalize (rows b) as ws.
  intros ws. revert r. induction ws as [|w ws IH]; intros r c Hws.
  - destruct r; simpl; apply length_replicate.
  - destruct r as [|x r]; simpl; [apply length_replicate|].
    apply Forall_cons in Hws as [Hw Hws].
    rewrite length_zip_with, length_fmap, Hw, IH by done. lia.
Qed.

Lemma dot_ok a b :
  ncols a = nrows b → rect b →
  ∃ p, dot a b = Ok p ∧ shape p = (nrows a, ncols b) ∧ rect p.
Proof.
  intros Hab Hb. unfold dot. rewrite decide_True by done.
  eexists; split; [done|]. split.
  - unfold shape, nrows. simpl. by rewrite length_fmap.
  - unfold rect. simpl. apply Forall_fmap, Forall_forall. intros r _.
    simpl. by apply length_vec_mat.
Qed.

Lemma dot_Ok_ncols a b p : dot a b = Ok p → ncols p = ncols b.
Proof. unfold dot. case_decide; [|done]. by intros [= <-]. Qed.

Lemma dot_raises a b e : dot a b = Raise e → e = DimensionMismatch.
Proof. unfold dot. case_decide; [done|]. by intros [= <-]. Qed.

Lemma apply_mask_mtab n c (k : nat → R) (new old : nat → nat → R) :
  apply_mask (Some (vtab n k)) (mtab n c new) (mtab n c old)
  = Ok (mtab n c (λ i j, k i ⊠ new i j ⊞ (s1 ⊟ k i) ⊠ old i j)).
Proof.
  unfold apply_mask. rewrite one_minus_vtab, !elemwise_col_mtab.
  cbn [rbind]. by rewrite elemwise_mtab.
Qed.

(** The unmasked transition on tabulated operands. *)
Lemma inner_apply_tab (self : DebugLSTM R) n W
    (x h c p : nat → nat → R) (wi wf wo : nat → R) :
  W_state self = Ok W →
  W_cell_to_in self = Ok (vtab (dim self) wi) →
  W_cell_to_forget self = Ok (vtab (dim self) wf) →
  W_cell_to_out self = Ok (vtab (dim self) wo) →
  dot (mtab n (dim self) h) W = Ok (mtab n (4 * dim self) p) →
  let d := dim self in
  let σ := gate_activation self in
  let τ := activation self in
  let a := λ i j, p i j ⊞ x i j in
  let ig := λ i j, σ (a i (0 * d + j) ⊞ c i j ⊠ wi j) in
  let fg := λ i j, σ (a i (1 * d + j) ⊞ c i j ⊠ wf j) in
  let nc := λ i j, fg i j ⊠ c i j ⊞ ig i j ⊠ τ (a i (2 * d + j)) in
  let og := λ i j, σ (a i (3 * d + j) ⊞ nc i j ⊠ wo j) in
  let nh := λ i j, og i j ⊠ τ (nc i j) in
  inner_apply self (mtab n (4 * d) x) (mtab n d h) (mtab n d c) None
  = Ok (mtab n d nh, mtab n d nc, mtab n d ig, mtab n d fg, mtab n d og).
Proof.
  intros HW Hwi Hwf Hwo Hdot. intros. subst d. unfold inner_apply.
  rewrite HW, Hwi, Hwf, Hwo. cbn [rbind]. rewrite Hdot. cbn [rbind].
  repeat first
    [ rewrite elemwise_mtab | rewrite elemwise_row_mtab
    | rewrite brick_apply_mtab | rewrite slice_last_mtab4 by lia
    | progress cbn [rbind apply_mask] ].
  reflexivity.
Qed.

Lemma allocated_attrs (self : DebugLSTM R) :
  allocated self →
  ∃ W wi wf wo h0 c0,
    W_state self = Ok W ∧ W_cell_to_in self = Ok wi ∧
    W_cell_to_forget self = Ok wf ∧ W_cell_to_out self = Ok wo ∧
    initial_state_ self = Ok h0 ∧ initial_cells self = Ok c0 ∧
    shape W = (dim self, 4 * dim self) ∧ rect W ∧
    length wi = dim self ∧ length wf = dim self ∧ length wo = dim self ∧
    length h0 = dim self ∧ length c0 = dim self.
Proof.
  intros (W & wi & wf & wo & h0 & c0 & Hp & HW).
  exists W, wi, wf, wo, h0, c0.
  unfold W_state, W_cell_to_in, W_cell_to_forget, W_cell_to_out,
    initial_state_, initial_cells, attr_mat, attr_vec.
  rewrite Hp. simpl. repeat split; tauto.
Qed.

(** The unmasked transition on a valid batch, every result tabulated. *)
Lemma inner_apply_None (self : DebugLSTM R) n inputs states cells W wi wf wo :
  allocated self → valid_step self n inputs states cells →
  W_state self = Ok W → W_cell_to_in self = Ok wi →
  W_cell_to_forget self = Ok wf → W_cell_to_out self = Ok wo →
  ∃ hW, dot states W = Ok hW ∧ shape hW = (n, 4 * dim self) ∧ rect hW ∧
    let d := dim self in
    let σ := gate_activation self in
    let τ := activation self in
    let a := λ i j, mat_at hW i j ⊞ mat_at inputs i j in
    let c := mat_at cells in
    let ig := λ i j, σ (a i (0 * d + j) ⊞ c i j ⊠ vec_at wi j) in
    let fg := λ i j, σ (a i (1 * d + j) ⊞ c i j ⊠ vec_at wf j) in
    let nc := λ i j, fg i j ⊠ c i j ⊞ ig i j ⊠ τ (a i (2 * d + j)) in
    let og := λ i j, σ (a i (3 * d + j) ⊞ nc i j ⊠ vec_at wo j) in
    let nh := λ i j, og i j ⊠ τ (nc i j) in
    inner_apply self inputs states cells None
    = Ok (mtab n d nh, mtab n d nc, mtab n d ig, mtab n d fg, mtab n d og).
Proof.
  intros Ha (Hrx & Hsx & Hrh & Hsh & Hrc & Hsc) HW Hwi Hwf Hwo.
  destruct (allocated_attrs self Ha)
    as (W' & wi' & wf' & wo' & h0 & c0 & HW' & Hwi' & Hwf' & Hwo' & _ & _
        & HsW & HrW & Hli & Hlf & Hlo & _ & _).
  assert (W' = W) as -> by congruence.
  assert (wi' = wi) as -> by congruence.
  assert (wf' = wf) as -> by congruence.
  assert (wo' = wo) as -> by congruence.
  unfold get_dim in *. rewrite Nat.mul_comm in Hsx.
  assert (ncols states = nrows W) as Hinner.
  { unfold shape in *. congruence. }
  destruct (dot_ok states W Hinner HrW) as (hW & Hdot & HshW & HrhW).
  assert (shape hW = (n, 4 * dim self)) as HshW'.
  { unfold shape in *. congruence. }
  exists hW. split; [done|]. split; [done|]. split; [done|].
  pose proof (inner_apply_tab self n W (mat_at inputs) (mat_at states)
    (mat_at cells) (mat_at hW) (vec_at wi) (vec_at wf) (vec_at wo)) as Hmain.
  cbv zeta in Hmain.
  rewrite <- (mat_tab_shape inputs n (4 * dim self)) in Hmain by done.
  rewrite <- (mat_tab_shape states n (dim self)) in Hmain by done.
  rewrite <- (mat_tab_shape cells n (dim self)) in Hmain by done.
  rewrite <- (mat_tab_shape hW n (4 * dim self)) in Hmain by done.
  rewrite <- (vec_tab_len wi (dim self)) in Hmain by done.
  rewrite <- (vec_tab_len wf (dim self)) in Hmain by done.
  rewrite <- (vec_tab_len wo (dim self)) in Hmain by done.
  by apply Hmain.
Qed.

(** The results of an unmasked step have the shape of the states. *)
Lemma inner_apply_None_shapes (self : DebugLSTM R) n inputs states cells :
  allocated self → valid_step self n inputs states cells →
  ∃ nh nc ig fg og,
    inner_apply self inputs states cells None = Ok (nh, nc, ig, fg, og) ∧
    (shape nh = (n, dim self) ∧ rect nh) ∧
    (shape nc = (n, dim self) ∧ rect nc).
Proof.
  intros Ha Hv.
  destruct (allocated_attrs self Ha)
    as (W & wi & wf & wo & h0 & c0 & HW & Hwi & Hwf & Hwo & _).
  destruct (inner_apply_None self n inputs states cells W wi wf wo)
    as (hW & _ & _ & _ & Hstep); try done.
  cbv zeta in Hstep. do 5 eexists. split; [exact Hstep|].
  split; (split; [apply shape_mtab | apply rect_mtab]).
Qed.

(** A step with a mask is the unmasked step followed by the two blends. *)
Lemma inner_apply_mask (self : DebugLSTM R) inputs states cells mask
    nh nc ig fg og :
  inner_apply self inputs states cells None = Ok (nh, nc, ig, fg, og) →
  inner_apply self inputs states cells mask
  = (nh' <- apply_mask mask nh states;;
     nc' <- apply_mask mask nc cells;;
     Ok (nh', nc', ig, fg, og)).
Proof.
  unfold inner_apply. intros Hnone.
  repeat match type of Hnone with
  | context [rbind ?e _] =>
      destruct e eqn:?; cbn [rbind apply_mask] in Hnone |- *; [|discriminate]
  end.
  injection Hnone as <- <- <- <- <-. reflexivity.
Qed.

(** The blend of a new and an old value, row [i] weighted by [m[i]]. *)
Lemma apply_mask_Some n c (m : list R) new old :
  length m = n → shape new = (n, c) → rect new → shape old = (n, c) →
  rect old →
  apply_mask (Some m) new old
  = Ok (mtab n c (λ i j, vec_at m i ⊠ mat_at new i j
                         ⊞ (s1 ⊟ vec_at m i) ⊠ mat_at old i j)).
Proof.
  intros Hm Hsn Hrn Hso Hro.
  rewrite <- (apply_mask_mtab n c (vec_at m) (mat_at new) (mat_at old)).
  by rewrite <- (vec_tab_len m n), <- (mat_tab_shape new n c),
    <- (mat_tab_shape old n c).
Qed.

Lemma inner_apply_Some (self : DebugLSTM R) n inputs states cells
    (m : list R) nh nc ig fg og :
  valid_step self n inputs states cells → length m = n →
  inner_apply self inputs states cells None = Ok (nh, nc, ig, fg, og) →
  shape nh = (n, dim self) → rect nh → shape nc = (n, dim self) → rect nc →
  inner_apply self inputs states cells (Some m)
  = Ok (mtab n (dim self) (λ i j, vec_at m i ⊠ mat_at nh i j
                                  ⊞ (s1 ⊟ vec_at m i) ⊠ mat_at states i j),
        mtab n (dim self) (λ i j, vec_at m i ⊠ mat_at nc i j
                                  ⊞ (s1 ⊟ vec_at m i) ⊠ mat_at cells i j),
        ig, fg, og).
Proof.
  intros (_ & _ & Hrh & Hsh & Hrc & Hsc) Hm Hnone Hsnh Hrnh Hsnc Hrnc.
  rewrite (inner_apply_mask _ _ _ _ _ _ _ _ _ _ Hnone).
  rewrite (apply_mask_Some n (dim self)), (apply_mask_Some n (dim self))
    by done.
  reflexivity.
Qed.

Lemma inner_apply_valid (self : DebugLSTM R) n inputs states cells
    (mask : option (list R)) :
  allocated self → valid_step self n inputs states cells →
  valid_mask n mask →
  ∃ nh nc ig fg og,
    inner_apply self inputs states cells mask = Ok (nh, nc, ig, fg, og) ∧
    (shape nh = (n, dim self) ∧ rect nh) ∧
    (shape nc = (n, dim self) ∧ rect nc).
Proof.
  intros Ha Hv Hm.
  destruct (inner_apply_None_shapes self n inputs states cells Ha Hv)
    as (nh & nc & ig & fg & og & Hnone & [Hsnh Hrnh] & [Hsnc Hrnc]).
  destruct mask as [k|]; simpl in Hm.
  - do 5 eexists. split.
    { by apply (inner_apply_Some self n inputs states cells k nh nc ig fg og). }
    rewrite !shape_mtab. repeat split; apply rect_mtab.
  - by exists nh, nc, ig, fg, og.
Qed.

Lemma vec_at_replicate n (x : R) i : i < n → vec_at (replicate n x) i = x.
Proof. intros Hi. unfold vec_at. by rewrite lookup_replicate_2. Qed.

End TensorFacts.

(** ** Finite entries under the mask *)

Section MaskFacts.
Context {R : Type} `{IEEEArith R} {BC : Broadcasting}.

Lemma msim_mtab n c (f g : nat → nat → R) :
  (∀ i j, i < n → j < c → f i j ≃ g i j) → msim (mtab n c f) (mtab n c g).
Proof.
  intros Hfg. split; [done|]. unfold mtab. cbn [rows].
  apply Forall2_fmap, Forall_Forall2_diag, Forall_forall.
  intros i Hi%elem_of_seq. unfold vtab.
  apply Forall2_fmap, Forall_Forall2_diag, Forall_forall.
  intros j Hj%elem_of_seq. apply Hfg; lia.
Qed.

Lemma msim_mtab_r n c (f : nat → nat → R) (b : matrix R) :
  rect b → shape b = (n, c) →
  (∀ i j, i < n → j < c → f i j ≃ mat_at b i j) → msim (mtab n c f) b.
Proof.
  intros Hr Hs Hf.
  assert (msim (mtab n c f) (mtab n c (mat_at b))) as Hm
    by by apply msim_mtab.
  by rewrite <- (mat_tab_shape b n c Hr Hs) in Hm.
Qed.

Lemma all_finite_at (m : matrix R) n c i j :
  rect m → shape m = (n, c) → all_finite m → i < n → j < c →
  sfinite (mat_at m i j) = true.
Proof.
  intros Hr Hs Hfin Hi Hj. unfold shape, nrows in Hs. injection Hs as Hn Hc.
  destruct (lookup_lt_is_Some_2 (rows m) i) as [r Hrow]; [lia|].
  unfold rect in Hr. rewrite Forall_lookup in Hr.
  pose proof (Hr i r Hrow) as Hlen. cbn in Hlen.
  destruct (lookup_lt_is_Some_2 r j) as [x Hx]; [lia|].
  unfold all_finite in Hfin. rewrite Forall_lookup in Hfin.
  pose proof (Hfin i r Hrow) as Hfr. rewrite Forall_lookup in Hfr.
  unfold mat_at, entry. rewrite Hrow. cbn. rewrite Hx. cbn.
  exact (Hfr j x Hx).
Qed.

End MaskFacts.

(** ** The transition [inner_apply] *)

Section Transition.
Context {R : Type} `{Scalar R} {BC : Broadcasting}.

(** C1: one unmasked step.  The projection is [states . W_state + inputs];
    chunk [no] of it (for [no] = 0, 1, 2, 3: input gate, forget gate, cell
    candidate, output gate) holds its columns [no*dim .. no*dim + dim - 1];
    the input and forget gates peep at the previous cells, the output gate
    at the new cells; the new cells are [forget * cells + in * act(chunk 2)]
    and the new states [out * act(new cells)]. *)
Theorem inner_apply_unmasked_equations (self : DebugLSTM R) (n : nat)
    (inputs states cells W : matrix R) (wi wf wo : list R) :
  allocated self → valid_step self n inputs states cells →
  W_state self = Ok W → W_cell_to_in self = Ok wi →
  W_cell_to_forget self = Ok wf → W_cell_to_out self = Ok wo →
  ∃ hW projection in_gate forget_gate next_cells out_gate next_states,
    dot states W = Ok hW ∧
    elemwise sadd hW inputs = Ok projection ∧
    inner_apply self inputs states cells None
    = Ok (next_states, next_cells, in_gate, forget_gate, out_gate) ∧
    (∀ no, no < 4 →
       slice_last self projection no
       = mtab n (dim self) (λ b j, mat_at projection b (no * dim self + j))) ∧
    in_gate
    = mtab n (dim self) (λ b j,
        gate_activation self
          (mat_at (slice_last self projection 0) b j
           ⊞ mat_at cells b j ⊠ vec_at wi j)) ∧
    forget_gate
    = mtab n (dim self) (λ b j,
        gate_activation self
          (mat_at (slice_last self projection 1) b j
           ⊞ mat_at cells b j ⊠ vec_at wf j)) ∧
    next_cells
    = mtab n (dim self) (λ b j,
        mat_at forget_gate b j ⊠ mat_at cells b j
        ⊞ mat_at in_gate b j
          ⊠ activation self (mat_at (slice_last self projection 2) b j)) ∧
    out_gate
    = mtab n (dim self) (λ b j,
        gate_activation self
          (mat_at (slice_last self projection 3) b j
           ⊞ mat_at next_cells b j ⊠ vec_at wo j)) ∧
    next_states
    = mtab n (dim self) (λ b j,
        mat_at out_gate b j ⊠ activation self (mat_at next_cells b j)).
Proof.
  intros Ha Hv HW Hwi Hwf Hwo.
  destruct (inner_apply_None self n inputs states cells W wi wf wo)
    as (hW & Hdot & HshW & HrhW & Hstep); try done.
  cbv zeta in Hstep.
  destruct Hv as (Hrx & Hsx & _). unfold get_dim in Hsx.
  rewrite Nat.mul_comm in Hsx.
  set (a := λ i j, mat_at hW i j ⊞ mat_at inputs i j) in *.
  assert (elemwise sadd hW inputs = Ok (mtab n (4 * dim self) a)) as Hproj.
  { rewrite (mat_tab_shape hW n (4 * dim self)) at 1 by done.
    rewrite (mat_tab_shape inputs n (4 * dim self)) at 1 by done.
    by rewrite elemwise_mtab. }
  assert (∀ no i j, no < 4 → i < n → j < dim self →
    mat_at (slice_last self (mtab n (4 * dim self) a) no) i j
    = a i (no * dim self + j)) as Hslice.
  { intros no i j Hno Hi Hj.
    by rewrite slice_last_mtab4, mat_at_mtab by done. }
  eexists hW, _, _, _, _, _, _.
  split; [exact Hdot|]. split; [exact Hproj|]. split; [exact Hstep|].
  split; [|repeat split].
  - intros no Hno. rewrite slice_last_mtab4 by done.
    apply mtab_ext. intros i j Hi Hj. rewrite mat_at_mtab; [done..|nia].
  - apply mtab_ext. intros i j Hi Hj. by rewrite Hslice by (done || lia).
  - apply mtab_ext. intros i j Hi Hj. by rewrite Hslice by (done || lia).
  - apply mtab_ext. intros i j Hi Hj.
    by rewrite Hslice, !mat_at_mtab by (done || lia).
  - apply mtab_ext. intros i j Hi Hj.
    by rewrite Hslice, !mat_at_mtab by (done || lia).
  - apply mtab_ext. intros i j Hi Hj. by rewrite !mat_at_mtab by done.
Qed.

(** C3: with a mask, every position [(b, j)] of the new states and of the
    new cells is [mask[b] * new + (1 - mask[b]) * old], where [new] is the
    result of the unmasked step; the gates are returned as computed. *)
Theorem inner_apply_masked_blend (self : DebugLSTM R) (n : nat)
    (inputs states cells : matrix R) (mask : list R) :
  allocated self → valid_step self n inputs states cells →
  length mask = n →
  ∃ new_states new_cells in_gate forget_gate out_gate,
    inner_apply self inputs states cells None
    = Ok (new_states, new_cells, in_gate, forget_gate, out_gate) ∧
    inner_apply self inputs states cells (Some mask)
    = Ok (mtab n (dim self) (λ b j,
            vec_at mask b ⊠ mat_at new_states b j
            ⊞ (s1 ⊟ vec_at mask b) ⊠ mat_at states b j),
          mtab n (dim self) (λ b j,
            vec_at mask b ⊠ mat_at new_cells b j
            ⊞ (s1 ⊟ vec_at mask b) ⊠ mat_at cells b j),
          in_gate, forget_gate, out_gate).
Proof.
  intros Ha Hv Hm.
  destruct (inner_apply_None_shapes self n inputs states cells Ha Hv)
    as (nh & nc & ig & fg & og & Hnone & [Hsnh Hrnh] & [Hsnc Hrnc]).
  exists nh, nc, ig, fg, og. split; [done|].
  by apply inner_apply_Some.
Qed.

(** C8: on a valid batch, with or without a mask, a step returns new
    states and new cells of shape (batch, dim), the shape of the states
    and of the cells it was given. *)
Theorem inner_apply_shapes (self : DebugLSTM R) (n : nat)
    (inputs states cells : matrix R) (mask : option (list R)) :
  allocated self → valid_step self n inputs states cells →
  valid_mask n mask →
  ∃ next_states next_cells in_gate forget_gate out_gate,
    inner_apply self inputs states cells mask
    = Ok (next_states, next_cells, in_gate, forget_gate, out_gate) ∧
    shape next_states = (n, get_dim self States) ∧
    shape next_cells = (n, get_dim self Cells) ∧
    shape next_states = shape states ∧ shape next_cells = shape cells ∧
    rect next_states ∧ rect next_cells.
Proof.
  intros Ha Hv Hm.
  destruct (inner_apply_valid self n inputs states cells mask Ha Hv Hm)
    as (nh & nc & ig & fg & og & Hstep & [Hsnh Hrnh] & [Hsnc Hrnc]).
  destruct Hv as (_ & _ & _ & Hsh & _ & Hsc). unfold get_dim in *.
  exists nh, nc, ig, fg, og. rewrite Hsh, Hsc. done.
Qed.

Lemma elemwise_width_mismatch (f : R → R → R) (a b : matrix R) :
  ncols a ≠ ncols b → ncols a ≠ 1 → ncols b ≠ 1 →
  elemwise f a b = Raise DimensionMismatch.
Proof.
  intros Hne Ha Hb. unfold elemwise.
  rewrite decide_False by (unfold shape; congruence).
  unfold fits at 2.
  rewrite !bool_decide_eq_false_2 by done.
  by rewrite andb_false_r.
Qed.

Lemma elemwise_not_stretched (f : R → R → R) (a b : matrix R) :
  shape a ≠ shape b →
  stretch [nrows a; ncols a] [nrows b; ncols b] = false →
  elemwise f a b = Raise DimensionMismatch.
Proof.
  intros Hne Hs. unfold elemwise. rewrite decide_False by done.
  by rewrite Hs, andb_false_r.
Qed.

(** C9: a valid batch, of width [4 * dim], with a valid mask
    raises nothing.  The step has no width check of its own: an [inputs]
    of another width is turned down by the element-wise addition of the
    projection, with a dimension mismatch and before any gate is
    computed -- always when that width is not 1, and for width 1 whenever
    Theano does not stretch the axis. *)
Theorem inner_apply_width (self : DebugLSTM R) (n : nat)
    (inputs states cells : matrix R) (mask : option (list R)) :
  allocated self →
  (valid_step self n inputs states cells → valid_mask n mask →
   ∃ r, inner_apply self inputs states cells mask = Ok r)
  ∧ (ncols inputs ≠ 4 * dim self → ncols inputs ≠ 1 →
     inner_apply self inputs states cells mask = Raise DimensionMismatch)
  ∧ (ncols inputs ≠ 4 * dim self →
     stretch [nrows states; 4 * dim self] [nrows inputs; ncols inputs]
     = false →
     inner_apply self inputs states cells mask = Raise DimensionMismatch).
Proof.
  intros Ha.
  destruct (allocated_attrs self Ha)
    as (W & wi & wf & wo & h0 & c0 & HW & _ & _ & _ & _ & _ & HsW & _).
  assert (ncols W = 4 * dim self) as HcW by (unfold shape in HsW; congruence).
  split; [|split].
  - intros Hv Hm.
    destruct (inner_apply_valid self n inputs states cells mask Ha Hv Hm)
      as (nh & nc & ig & fg & og & Hstep & _).
    by eexists.
  - intros Hne Hone. unfold inner_apply. rewrite HW. cbn [rbind].
    destruct (dot states W) as [hW|e] eqn:Hdot; cbn [rbind].
    + rewrite elemwise_width_mismatch; [done|..].
      * rewrite (dot_Ok_ncols _ _ _ Hdot). congruence.
      * rewrite (dot_Ok_ncols _ _ _ Hdot). lia.
      * done.
    + by rewrite (dot_raises _ _ _ Hdot).
  - intros Hne Hs. unfold inner_apply. rewrite HW. cbn [rbind].
    destruct (dot states W) as [hW|e] eqn:Hdot; cbn [rbind].
    + pose proof (dot_Ok_ncols _ _ _ Hdot) as Hc.
      assert (nrows hW = nrows states) as Hn.
      { unfold dot in Hdot. case_decide; [|done]. injection Hdot as <-.
        unfold nrows. cbn [rows]. by rewrite length_fmap. }
      rewrite elemwise_not_stretched; [done|..].
      * unfold shape. rewrite Hc. congruence.
      * by rewrite Hn, Hc, HcW.
    + by rewrite (dot_raises _ _ _ Hdot).
Qed.

End Transition.


Section MaskedTransition.
Context {R : Type} `{IEEEArith R} {BC : Broadcasting}.

(** C4, on finite values: when the new states and cells that the unmasked step
    computes are finite, the step with an all-zeros mask returns, entry by
    entry, the previous states and the previous cells, up to the sign of
    a zero; the gates are those of the unmasked step. *)
Theorem inner_apply_mask_zeros_finite (self : DebugLSTM R) (n : nat)
    (inputs states cells : matrix R)
    (new_states new_cells in_gate forget_gate out_gate : matrix R) :
  allocated self → valid_step self n inputs states cells →
  inner_apply self inputs states cells None
  = Ok (new_states, new_cells, in_gate, forget_gate, out_gate) →
  all_finite new_states → all_finite new_cells →
  ∃ next_states next_cells,
    inner_apply self inputs states cells (Some (replicate n s0))
    = Ok (next_states, next_cells, in_gate, forget_gate, out_gate) ∧
    msim next_states states ∧ msim next_cells cells.
Proof.
  intros Ha Hv Hnone Hfh Hfc.
  destruct (inner_apply_None_shapes self n inputs states cells Ha Hv)
    as (nh & nc & ig & fg & og & Hnone' & [Hsnh Hrnh] & [Hsnc Hrnc]).
  rewrite Hnone in Hnone'. injection Hnone' as <- <- <- <- <-.
  do 2 eexists. split.
  { apply (inner_apply_Some self n inputs states cells _ new_states
             new_cells in_gate forget_gate out_gate); try done.
    apply length_replicate. }
  destruct Hv as (_ & _ & Hrh & Hsh & Hrc & Hsc). unfold get_dim in *.
  split; apply msim_mtab_r; try done; intros b j Hb Hj;
    rewrite vec_at_replicate by done; apply blend_zero.
  - by apply (all_finite_at new_states n (dim self)).
  - by apply (all_finite_at new_cells n (dim self)).
Qed.

(** C5, on finite values: when the previous states and cells are finite,
    the step with an all-ones mask returns, entry by entry, the states and
    cells of the step without a mask, up to the sign of a zero, and the
    same gates. *)
Theorem inner_apply_mask_ones_finite (self : DebugLSTM R) (n : nat)
    (inputs states cells : matrix R) :
  allocated self → valid_step self n inputs states cells →
  all_finite states → all_finite cells →
  ∃ new_states new_cells in_gate forget_gate out_gate
    next_states next_cells,
    inner_apply self inputs states cells None
    = Ok (new_states, new_cells, in_gate, forget_gate, out_gate) ∧
    inner_apply self inputs states cells (Some (replicate n s1))
    = Ok (next_states, next_cells, in_gate, forget_gate, out_gate) ∧
    msim next_states new_states ∧ msim next_cells new_cells.
Proof.
  intros Ha Hv Hfh Hfc.
  destruct (inner_apply_None_shapes self n inputs states cells Ha Hv)
    as (nh & nc & ig & fg & og & Hnone & [Hsnh Hrnh] & [Hsnc Hrnc]).
  exists nh, nc, ig, fg, og. do 2 eexists. split; [done|]. split.
  { apply (inner_apply_Some self n inputs states cells _ nh nc ig fg og);
      try done.
    apply length_replicate. }
  destruct Hv as (_ & _ & Hrh & Hsh & Hrc & Hsc). unfold get_dim in *.
  split; apply msim_mtab_r; try done; intros b j Hb Hj;
    rewrite vec_at_replicate by done; apply blend_one.
  - by apply (all_finite_at states n (dim self)).
  - by apply (all_finite_at cells n (dim self)).
Qed.

End MaskedTransition.

(** ** Allocation, initialization and the initial states *)

Section InitialStates.
Context {R : Type} `{Scalar R}.

Lemma allocate_allocated (self : DebugLSTM R) : allocated (_allocate self).
Proof.
  do 6 eexists. split; [reflexivity|]. simpl.
  unfold shape, nrows, rect, nans_matrix, nans_vector, zeros_vector. simpl.
  rewrite !length_replicate. repeat split.
  apply Forall_replicate. simpl. apply length_replicate.
Qed.

Lemma init_loop_length {Rng} (weights_init : shared R → Rng → shared R * Rng)
    (ws : list (shared R)) (rng : Rng) :
  length (init_loop weights_init ws rng).1 = length ws.
Proof.
  revert rng. induction ws as [|w ws IH]; intros rng; simpl; [done|].
  destruct (weights_init w rng) as [w' rng'].
  specialize (IH rng'). destruct (init_loop weights_init ws rng'). simpl in *.
  by rewrite IH.
Qed.

(** [_initialize] rewrites the first four parameters and keeps the rest. *)
Lemma initialize_parameters {Rng}
    (weights_init : shared R → Rng → shared R * Rng)
    (self : DebugLSTM R) (rng : Rng) :
  parameters (_initialize weights_init self rng).1
  = (init_loop weights_init (take 4 (parameters self)) rng).1
    ++ drop 4 (parameters self).
Proof.
  unfold _initialize.
  by destruct (init_loop weights_init (take 4 (parameters self)) rng).
Qed.

Lemma initialize_lookup_ge {Rng}
    (weights_init : shared R → Rng → shared R * Rng)
    (self : DebugLSTM R) (rng : Rng) (i : nat) :
  4 ≤ length (parameters self) → 4 ≤ i →
  parameters (_initialize weights_init self rng).1 !! i = parameters self !! i.
Proof.
  intros Hlen Hi. rewrite initialize_parameters.
  rewrite lookup_app_r; rewrite init_loop_length, length_take; [|lia].
  rewrite lookup_drop. f_equal. lia.
Qed.

(** C6: [initial_states(N)] returns two tensors of [N] rows, every row of
    the first being the vector [initial_state_] and every row of the second
    the vector [initial_cells]. *)
Theorem initial_states_broadcast (self : DebugLSTM R) (N : nat)
    (h0 c0 : list R) :
  initial_state_ self = Ok h0 → initial_cells self = Ok c0 →
  ∃ hidden_state cell_state,
    initial_states self N = Ok (hidden_state, cell_state) ∧
    shape hidden_state = (N, length h0) ∧ shape cell_state = (N, length c0) ∧
    (∀ i, i < N → rows hidden_state !! i = Some h0) ∧
    (∀ i, i < N → rows cell_state !! i = Some c0).
Proof.
  intros Hh Hc. unfold initial_states. rewrite Hh, Hc. cbn [rbind].
  do 2 eexists. split; [reflexivity|].
  unfold shape, nrows, repeat_rows. cbn [rows ncols].
  rewrite !length_replicate.
  repeat split; intros i Hi; by apply lookup_replicate_2.
Qed.

(** C10: allocation makes [initial_state_] and [initial_cells] zero vectors
    of length [dim]; initialization rewrites only the first four
    parameters; so after both, [initial_states(N)] is all zeros. *)
Theorem initial_states_after_initialize {Rng}
    (weights_init : shared R → Rng → shared R * Rng)
    (brick : DebugLSTM R) (rng : Rng) (N : nat) :
  let fresh := _allocate brick in
  let self := (_initialize weights_init fresh rng).1 in
  let zeros := Matrix (dim brick) (replicate N (replicate (dim brick) s0)) in
  (initial_state_ fresh = Ok (replicate (dim brick) s0) ∧
   initial_cells fresh = Ok (replicate (dim brick) s0)) ∧
  (take 4 (parameters self)
   = (init_loop weights_init (take 4 (parameters fresh)) rng).1 ∧
   drop 4 (parameters self) = drop 4 (parameters fresh)) ∧
  (initial_state_ self = initial_state_ fresh ∧
   initial_cells self = initial_cells fresh) ∧
  initial_states self N = Ok (zeros, zeros).
Proof.
  intros fresh self zeros.
  assert (length (init_loop weights_init (take 4 (parameters fresh)) rng).1 = 4)
    as Hlen by (by rewrite init_loop_length).
  assert (initial_state_ self = initial_state_ fresh) as Hh.
  { unfold initial_state_, attr_vec, self.
    by rewrite initialize_lookup_ge by (simpl; lia). }
  assert (initial_cells self = initial_cells fresh) as Hc.
  { unfold initial_cells, attr_vec, self.
    by rewrite initialize_lookup_ge by (simpl; lia). }
  split; [done|]. split.
  { unfold self. rewrite initialize_parameters. split.
    - by rewrite take_app_length'.
    - by rewrite drop_app_length'. }
  split; [done|].
  unfold initial_states. rewrite Hh, Hc. cbn.
  unfold repeat_rows, zeros_vector, zeros. by rewrite length_replicate.
Qed.

End InitialStates.

(** ** The dictionary *)

Section RetrievalFacts.
Variable merge : list (list (list string)) → list (list string).

(** A phrase key wins over the single-word fallback. *)
Lemma get_definitions_phrase (d : Dictionary) (query : string) defs :
  d !! query = Some defs → get_definitions merge d query = defs.
Proof. intros Hq. unfold get_definitions. by rewrite Hq. Qed.

(** C2: on the dictionary of [test_dict], ['a'] yields its two definitions
    and the two-token query ['d c'] yields the definition of the phrase;
    and on every dictionary a query that is a key yields the definitions
    of that key, whatever entries its words have and whatever the
    single-word fallback does with them: the phrase is matched first. *)
Theorem test_dict :
  get_definitions merge (load TEST_DICT_JSON) "a" = [["b"; "c"]; ["d"; "e"]]%string
  ∧ get_definitions merge (load TEST_DICT_JSON) "d c" = [["a"; "b"]]%string
  ∧ tokens "d c" = ["d"; "c"]%string
  ∧ (∀ (d : Dictionary) (query : string) (defs : list (list string)),
       d !! query = Some defs → get_definitions merge d query = defs).
Proof.
  split; [done|]. split; [done|]. split; [done|].
  intros d query defs. apply get_definitions_phrase.
Qed.


End RetrievalFacts.

(** ** Rows of a batch *)

Section Rows.
Context {R : Type} `{Scalar R} {BC : Broadcasting}.
Implicit Types (x y z : matrix R) (v : list R).

Lemma mtab_row n c (g : nat → nat → R) b :
  b < n → rows (mtab n c g) !! b = Some (vtab c (g b)).
Proof.
  intros Hb. unfold mtab. cbn [rows].
  by rewrite list_lookup_fmap, lookup_seq_lt.
Qed.

Lemma row_tab x n c b :
  rect x → shape x = (n, c) → b < n →
  rows x !! b = Some (vtab c (mat_at x b)).
Proof.
  intros Hr Hs Hb. rewrite (mat_tab_shape x n c Hr Hs) at 1.
  by apply mtab_row.
Qed.

Lemma mat_at_row x y b b' k :
  rows x !! b = rows y !! b' → mat_at x b k = mat_at y b' k.
Proof. intros Hrow. unfold mat_at, entry. by rewrite Hrow. Qed.

Lemma vec_at_elem v v' b b' : v !! b = v' !! b' → vec_at v b = vec_at v' b'.
Proof. intros Hb. unfold vec_at. by rewrite Hb. Qed.

Lemma dot_row x y z b :
  dot x y = Ok z → rows z !! b = (λ r, vec_mat r y) <$> rows x !! b.
Proof.
  unfold dot. case_decide; [|done]. intros [= <-]. cbn [rows].
  apply list_lookup_fmap.
Qed.

(** Row [b] of every result of an unmasked step is computed from row [b]
    of the three arguments. *)
Lemma inner_apply_None_rows (self : DebugLSTM R) n n' x h c x' h' c' b b'
    nh nc ig fg og nh' nc' ig' fg' og' :
  allocated self →
  valid_step self n x h c → valid_step self n' x' h' c' →
  b < n → b' < n' →
  rows x !! b = rows x' !! b' → rows h !! b = rows h' !! b' →
  rows c !! b = rows c' !! b' →
  inner_apply self x h c None = Ok (nh, nc, ig, fg, og) →
  inner_apply self x' h' c' None = Ok (nh', nc', ig', fg', og') →
  rows nh !! b = rows nh' !! b' ∧ rows nc !! b = rows nc' !! b' ∧
  rows ig !! b = rows ig' !! b' ∧ rows fg !! b = rows fg' !! b' ∧
  rows og !! b = rows og' !! b'.
Proof.
  intros Ha Hv Hv' Hb Hb' Hx Hh Hc Hstep Hstep'.
  destruct (allocated_attrs self Ha)
    as (W & wi & wf & wo & h0 & c0 & HW & Hwi & Hwf & Hwo & _).
  destruct (inner_apply_None self n x h c W wi wf wo)
    as (hW & Hdot & _ & _ & Hres); try done.
  destruct (inner_apply_None self n' x' h' c' W wi wf wo)
    as (hW' & Hdot' & _ & _ & Hres'); try done.
  cbv zeta in Hres, Hres'. rewrite Hres in Hstep. rewrite Hres' in Hstep'.
  injection Hstep as <- <- <- <- <-. injection Hstep' as <- <- <- <- <-.
  assert (rows hW !! b = rows hW' !! b') as HhW.
  { by rewrite (dot_row _ _ _ _ Hdot), (dot_row _ _ _ _ Hdot'), Hh. }
  rewrite !mtab_row by done.
  repeat split; f_equal; apply vtab_ext; intros j Hj; cbv beta;
    rewrite ?(mat_at_row hW hW' b b') by done;
    rewrite ?(mat_at_row x x' b b') by done;
    rewrite ?(mat_at_row c c' b b') by done;
    reflexivity.
Qed.

(** X2: batches do not mix.  If row [b] of one valid batch and row [b'] of
    another agree (inputs, states, cells and, when masks are given, the
    mask element), then row [b] of every result of the first step is row
    [b'] of the corresponding result of the second. *)
Theorem inner_apply_row_local (self : DebugLSTM R) (n n' : nat)
    (inputs states cells inputs' states' cells' : matrix R)
    (mask mask' : option (list R)) (b b' : nat) :
  allocated self →
  valid_step self n inputs states cells →
  valid_step self n' inputs' states' cells' →
  valid_mask n mask → valid_mask n' mask' →
  b < n → b' < n' →
  rows inputs !! b = rows inputs' !! b' →
  rows states !! b = rows states' !! b' →
  rows cells !! b = rows cells' !! b' →
  (.!! b) <$> mask = (.!! b') <$> mask' →
  ∃ nh nc ig fg og nh' nc' ig' fg' og',
    inner_apply self inputs states cells mask = Ok (nh, nc, ig, fg, og) ∧
    inner_apply self inputs' states' cells' mask'
    = Ok (nh', nc', ig', fg', og') ∧
    rows nh !! b = rows nh' !! b' ∧ rows nc !! b = rows nc' !! b' ∧
    rows ig !! b = rows ig' !! b' ∧ rows fg !! b = rows fg' !! b' ∧
    rows og !! b = rows og' !! b'.
Proof.
  intros Ha Hv Hv' Hm Hm' Hb Hb' Hx Hh Hc Hmask.
  destruct (inner_apply_None_shapes self n _ _ _ Ha Hv)
    as (nh & nc & ig & fg & og & Hnone & [Hsnh Hrnh] & [Hsnc Hrnc]).
  destruct (inner_apply_None_shapes self n' _ _ _ Ha Hv')
    as (nh' & nc' & ig' & fg' & og' & Hnone' & [Hsnh' Hrnh'] & [Hsnc' Hrnc']).
  destruct (inner_apply_None_rows self n n' _ _ _ _ _ _ b b'
              _ _ _ _ _ _ _ _ _ _ Ha Hv Hv' Hb Hb' Hx Hh Hc Hnone Hnone')
    as (Hnh & Hnc & Hig & Hfg & Hog).
  destruct mask as [m|], mask' as [m'|]; simpl in Hm, Hm', Hmask;
    try discriminate.
  - injection Hmask as Hmb.
    do 10 eexists.
    split; [by apply (inner_apply_Some self n _ _ _ m nh nc ig fg og)|].
    split; [by apply (inner_apply_Some self n' _ _ _ m' nh' nc' ig' fg' og')|].
    rewrite !mtab_row by done.
    repeat split; try done; f_equal; apply vtab_ext; intros j Hj;
      rewrite (vec_at_elem m m' b b') by done.
    + by rewrite (mat_at_row nh nh' b b'),
        (mat_at_row states states' b b') by done.
    + by rewrite (mat_at_row nc nc' b b'),
        (mat_at_row cells cells' b b') by done.
  - by exists nh, nc, ig, fg, og, nh', nc', ig', fg', og'.
Qed.

Lemma take_add_drop {A} (l : list A) (i k : nat) :
  take (i + k) l = take i l ++ take k (drop i l).
Proof.
  revert l. induction i as [|i IH]; intros [|a l]; simpl; try done.
  - by rewrite take_nil.
  - by rewrite IH.
Qed.

(** X4: the four chunks tile the projection.  For every row, the chunks 0,
    1, 2, 3 cut by [slice_last], put side by side, are the first [4 * dim]
    elements of the row; on a row of exactly that width nothing is lost
    and every chunk is [dim] wide.  A narrower row yields shorter chunks,
    never an error. *)
Theorem slice_last_chunks (self : DebugLSTM R) (x : matrix R) (b : nat)
    (r : list R) :
  rows x !! b = Some r →
  ∃ r0 r1 r2 r3,
    rows (slice_last self x 0) !! b = Some r0 ∧
    rows (slice_last self x 1) !! b = Some r1 ∧
    rows (slice_last self x 2) !! b = Some r2 ∧
    rows (slice_last self x 3) !! b = Some r3 ∧
    r0 ++ r1 ++ r2 ++ r3 = take (4 * dim self) r ∧
    (length r = 4 * dim self →
     r0 ++ r1 ++ r2 ++ r3 = r ∧ length r0 = dim self ∧
     length r1 = dim self ∧ length r2 = dim self ∧ length r3 = dim self).
Proof.
  intros Hr. set (d := dim self).
  assert (∀ no, rows (slice_last self x no) !! b
                = Some (take d (drop (no * d) r))) as Hslice.
  { intros no. unfold slice_last. cbn [rows].
    rewrite list_lookup_fmap, Hr. cbn. do 2 f_equal. fold d. lia. }
  exists (take d (drop (0 * d) r)), (take d (drop (1 * d) r)),
    (take d (drop (2 * d) r)), (take d (drop (3 * d) r)).
  repeat (split; [apply Hslice|]).
  assert (take d (drop (0 * d) r) ++ take d (drop (1 * d) r)
          ++ take d (drop (2 * d) r) ++ take d (drop (3 * d) r)
          = take (4 * d) r) as Htile.
  { replace (4 * d) with (d + (d + (d + d))) by lia.
    rewrite !take_add_drop, !drop_drop. simpl.
    by rewrite !Nat.add_0_r, !Nat.add_assoc. }
  split; [exact Htile|]. intros Hlen. rewrite Htile.
  split; [by rewrite take_ge by lia|].
  rewrite !length_take, !length_drop. lia.
Qed.

End Rows.


Section MaskedRows.
Context {R : Type} `{IEEEArith R} {BC : Broadcasting}.

(** X3: a binary mask selects rows, up to the sign of a zero.
    Where the mask is 0 and the new values of the row are finite, the step
    returns the row of the previous states and cells; where the mask is 1
    and the previous values of the row are finite, it returns the row that
    the unmasked step computes.  The other rows do not matter. *)
Theorem inner_apply_mask_rows_finite (self : DebugLSTM R)
    (n : nat) (inputs states cells : matrix R) (mask : list R) (b : nat)
    (nh nc ig fg og nh' nc' ig' fg' og' : matrix R) :
  allocated self → valid_step self n inputs states cells →
  length mask = n → b < n →
  inner_apply self inputs states cells None = Ok (nh, nc, ig, fg, og) →
  inner_apply self inputs states cells (Some mask)
  = Ok (nh', nc', ig', fg', og') →
  (mask !! b = Some s0 →
   (∀ j, j < dim self →
      sfinite (mat_at nh b j) = true ∧ sfinite (mat_at nc b j) = true) →
   ∀ j, j < dim self →
     mat_at nh' b j ≃ mat_at states b j ∧ mat_at nc' b j ≃ mat_at cells b j)
  ∧ (mask !! b = Some s1 →
     (∀ j, j < dim self →
        sfinite (mat_at states b j) = true ∧
        sfinite (mat_at cells b j) = true) →
     ∀ j, j < dim self →
       mat_at nh' b j ≃ mat_at nh b j ∧ mat_at nc' b j ≃ mat_at nc b j).
Proof.
  intros Ha Hv Hm Hb Hnone Hsome.
  destruct (inner_apply_None_shapes self n _ _ _ Ha Hv)
    as (nh0 & nc0 & ig0 & fg0 & og0 & Hnone0 & [Hsnh Hrnh] & [Hsnc Hrnc]).
  rewrite Hnone in Hnone0. injection Hnone0 as <- <- <- <- <-.
  rewrite (inner_apply_Some self n _ _ _ mask nh nc ig fg og) in Hsome
    by done.
  injection Hsome as <- <- <- <- <-.
  split; intros Hmb Hfin j Hj; destruct (Hfin j Hj) as [Hf1 Hf2];
    rewrite !mat_at_mtab by done;
    (assert (vec_at mask b = default s0 (mask !! b)) as -> by done);
    rewrite Hmb; cbn [default from_option id].
  - split; by apply blend_zero.
  - split; by apply blend_one.
Qed.

End MaskedRows.

(** ** From construction to the first step *)

Section Lifecycle.
Context {R : Type} `{Scalar R} {BC : Broadcasting}.

Lemma shared_shape_vec (p : shared R) (n : nat) :
  shared_shape p = [n] → ∃ v, p = SVec v ∧ length v = n.
Proof. destruct p as [v|m]; simpl; [|done]. intros [= <-]. by exists v. Qed.

Lemma shared_shape_mat (p : shared R) (n c : nat) :
  shared_shape p = [n; c] → shared_proper p →
  ∃ m, p = SMat m ∧ shape m = (n, c) ∧ rect m.
Proof.
  destruct p as [v|m]; simpl; [done|]. intros [= <- <-] Hr. by exists m.
Qed.

(** A shape-preserving scheme keeps an allocated brick allocated. *)
Lemma initialize_allocated {Rng}
    (weights_init : shared R → Rng → shared R * Rng)
    (self : DebugLSTM R) (rng : Rng) :
  shape_preserving weights_init → allocated self →
  allocated (_initialize weights_init self rng).1.
Proof.
  intros Hsp (W & wi & wf & wo & h0 & c0 & Hp & HsW & HrW & Hli & Hlf & Hlo
              & Hlh & Hlc).
  unfold _initialize. rewrite Hp. cbn [take drop init_loop].
  pose proof (Hsp (SMat W) rng) as [H0 H0'].
  destruct (weights_init (SMat W) rng) as [p0 rng0]. cbn [fst] in H0, H0'.
  pose proof (Hsp (SVec wi) rng0) as [H1 _].
  destruct (weights_init (SVec wi) rng0) as [p1 rng1]. cbn [fst] in H1.
  pose proof (Hsp (SVec wf) rng1) as [H2 _].
  destruct (weights_init (SVec wf) rng1) as [p2 rng2]. cbn [fst] in H2.
  pose proof (Hsp (SVec wo) rng2) as [H3 _].
  destruct (weights_init (SVec wo) rng2) as [p3 rng3]. cbn [fst] in H3.
  cbn [shared_shape] in H0, H1, H2, H3.
  apply shared_shape_mat in H0 as (W' & -> & HsW' & HrW'); [|done].
  apply shared_shape_vec in H1 as (wi' & -> & Hli').
  apply shared_shape_vec in H2 as (wf' & -> & Hlf').
  apply shared_shape_vec in H3 as (wo' & -> & Hlo').
  exists W', wi', wf', wo', h0, c0. cbn.
  unfold shape in *. repeat split; try done; try congruence.
  rewrite HsW', HsW. f_equal.
Qed.

(** X5: allocation agrees with [get_dim].  The fresh brick is allocated,
    its [W_state] maps a state of width [get_dim('states')] to a projection
    of width [get_dim('inputs')], the peephole and initial vectors have
    the width [get_dim('cells')], and the configuration is kept. *)
Theorem allocate_shapes (brick : DebugLSTM R) :
  allocated (_allocate brick) ∧
  (∃ W wi wf wo h0 c0,
     W_state (_allocate brick) = Ok W ∧
     W_cell_to_in (_allocate brick) = Ok wi ∧
     W_cell_to_forget (_allocate brick) = Ok wf ∧
     W_cell_to_out (_allocate brick) = Ok wo ∧
     initial_state_ (_allocate brick) = Ok h0 ∧
     initial_cells (_allocate brick) = Ok c0 ∧
     shape W = (get_dim brick States, get_dim brick Inputs) ∧
     Forall (λ v, length v = get_dim brick Cells) [wi; wf; wo; h0; c0]) ∧
  dim (_allocate brick) = dim brick ∧
  activation (_allocate brick) = activation brick ∧
  gate_activation (_allocate brick) = gate_activation brick.
Proof.
  split; [apply allocate_allocated|]. split; [|done].
  do 6 eexists. repeat (split; [reflexivity|]).
  unfold shape, nrows, get_dim, nans_matrix, nans_vector, zeros_vector.
  cbn [rows ncols]. rewrite length_replicate. split; [f_equal; lia|].
  repeat constructor; apply length_replicate.
Qed.

(** X6: initialization with a shape-preserving scheme keeps the brick
    allocated and leaves its configuration and its two initial-state
    vectors as they were. *)
Theorem initialize_keeps_allocated {Rng}
    (weights_init : shared R → Rng → shared R * Rng)
    (self : DebugLSTM R) (rng : Rng) :
  shape_preserving weights_init → allocated self →
  let self' := (_initialize weights_init self rng).1 in
  allocated self' ∧
  dim self' = dim self ∧ activation self' = activation self ∧
  gate_activation self' = gate_activation self ∧
  initial_state_ self' = initial_state_ self ∧
  initial_cells self' = initial_cells self.
Proof.
  intros Hsp Ha self'. split; [by apply initialize_allocated|].
  assert (4 ≤ length (parameters self)) as Hlen.
  { destruct Ha as (? & ? & ? & ? & ? & ? & -> & _). simpl. lia. }
  unfold self', initial_state_, initial_cells, attr_vec.
  rewrite !initialize_lookup_ge by (done || lia).
  unfold _initialize.
  by destruct (init_loop weights_init (take 4 (parameters self)) rng).
Qed.

Lemma rect_repeat_rows (v : list R) (n : nat) : rect (repeat_rows v n).
Proof. unfold rect, repeat_rows. cbn. by apply Forall_replicate. Qed.

Lemma shape_repeat_rows (v : list R) (n : nat) :
  shape (repeat_rows v n) = (n, length v).
Proof.
  unfold shape, nrows, repeat_rows. cbn. by rewrite length_replicate.
Qed.

(** X7: construction, allocation, initialization, initial states and a
    first transition fit together.  For a brick built by [__init__],
    allocated and initialized with a shape-preserving scheme,
    [initial_states(N)] succeeds, and one transition on any proper inputs
    of shape (N, 4*dim) from these states, with no mask or a mask of
    length N, returns states and cells of shape (N, dim). *)
Theorem first_step_after_initialize {Rng}
    (weights_init : shared R → Rng → shared R * Rng)
    (d : nat) (act gate : option (R → R)) (rng : Rng) (N : nat)
    (inputs : matrix R) (mask : option (list R)) :
  shape_preserving weights_init →
  rect inputs → shape inputs = (N, 4 * d) → valid_mask N mask →
  let self := (_initialize weights_init (_allocate (init d act gate)) rng).1 in
  ∃ hidden_state cell_state next_states next_cells in_gate forget_gate
    out_gate,
    initial_states self N = Ok (hidden_state, cell_state) ∧
    inner_apply self inputs hidden_state cell_state mask
    = Ok (next_states, next_cells, in_gate, forget_gate, out_gate) ∧
    shape next_states = (N, d) ∧ shape next_cells = (N, d) ∧
    rect next_states ∧ rect next_cells.
Proof.
  intros Hsp Hrx Hsx Hm self.
  assert (allocated self) as Ha.
  { apply initialize_allocated; [done|]. apply allocate_allocated. }
  assert (dim self = d) as Hd.
  { unfold self, _initialize.
    by destruct (init_loop weights_init
                   (take 4 (parameters (_allocate (init d act gate)))) rng). }
  destruct (allocated_attrs self Ha)
    as (W & wi & wf & wo & h0 & c0 & _ & _ & _ & _ & Hh0 & Hc0 & _ & _ & _
        & _ & _ & Hlh & Hlc).
  assert (valid_step self N inputs (repeat_rows h0 N) (repeat_rows c0 N))
    as Hv.
  { unfold valid_step, get_dim. rewrite !shape_repeat_rows, Hlh, Hlc, Hd.
    rewrite (Nat.mul_comm d 4).
    repeat split; try done; apply rect_repeat_rows. }
  destruct (inner_apply_valid self N _ _ _ mask Ha Hv Hm)
    as (nh & nc & ig & fg & og & Hstep & [Hsnh Hrnh] & [Hsnc Hrnc]).
  exists (repeat_rows h0 N), (repeat_rows c0 N), nh, nc, ig, fg, og.
  split. { unfold initial_states. by rewrite Hh0, Hc0. }
  split; [done|].
  rewrite <- Hd. done.
Qed.

End Lifecycle.

(** ** The theorems at work on concrete bricks *)

(** The runs below are those of a compiled function that checks the
    shapes of its operands. *)
#[local] Existing Instance unflagged.

Lemma demo_allocated : allocated demo_brick.
Proof.
  do 6 eexists. split; [reflexivity|].
  repeat split; repeat constructor.
Defined.

Lemma demo_valid : valid_step demo_brick 2 demo_inputs demo_states demo_cells.
Proof. repeat split; repeat constructor. Defined.

Lemma inner_apply_unmasked_equations_witness :
  inner_apply demo_brick demo_inputs demo_states demo_cells None
  = Ok (Matrix 2 [[0; 0]; [0; 1]], Matrix 2 [[2; 0]; [3; 1]],
        Matrix 2 [[1; 1]; [1; 1]], Matrix 2 [[1; 0]; [1; 1]],
        Matrix 2 [[0; 1]; [0; 1]])%Z.
Proof.
  destruct (inner_apply_unmasked_equations demo_brick 2 demo_inputs
              demo_states demo_cells _ _ _ _ demo_allocated demo_valid
              eq_refl eq_refl eq_refl eq_refl)
    as (hW & projection & ig & fg & nc & og & nh & Hdot & Hproj & Hstep
        & _ & Hig & Hfg & Hnc & Hog & Hnh).
  vm_compute in Hdot. injection Hdot as <-.
  vm_compute in Hproj. injection Hproj as <-.
  vm_compute in Hig. subst ig. vm_compute in Hfg. subst fg.
  vm_compute in Hnc. subst nc. vm_compute in Hog. subst og.
  vm_compute in Hnh. subst nh. exact Hstep.
Defined.

Lemma inner_apply_masked_blend_witness :
  inner_apply demo_brick demo_inputs demo_states demo_cells (Some [1; 0]%Z)
  = Ok (Matrix 2 [[0; 0]; [1; 1]], Matrix 2 [[2; 0]; [2; 0]],
        Matrix 2 [[1; 1]; [1; 1]], Matrix 2 [[1; 0]; [1; 1]],
        Matrix 2 [[0; 1]; [0; 1]])%Z.
Proof.
  destruct (inner_apply_masked_blend demo_brick 2 demo_inputs demo_states
              demo_cells [1; 0]%Z demo_allocated demo_valid eq_refl)
    as (nh & nc & ig & fg & og & Hnone & Hsome).
  vm_compute in Hnone. injection Hnone as <- <- <- <- <-.
  rewrite Hsome. reflexivity.
Defined.

Lemma inner_apply_shapes_witness :
  ∃ next_states next_cells in_gate forget_gate out_gate,
    inner_apply demo_brick demo_inputs demo_states demo_cells (Some [1; 0]%Z)
    = Ok (next_states, next_cells, in_gate, forget_gate, out_gate) ∧
    shape next_states = (2, 2) ∧ shape next_cells = (2, 2) ∧
    shape next_states = shape demo_states ∧
    shape next_cells = shape demo_cells ∧
    rect next_states ∧ rect next_cells.
Proof.
  exact (inner_apply_shapes demo_brick 2 demo_inputs demo_states demo_cells
           (Some [1; 0]%Z) demo_allocated demo_valid eq_refl).
Defined.

Lemma initial_states_broadcast_witness :
  ∃ hidden_state cell_state,
    initial_states demo_brick 3 = Ok (hidden_state, cell_state) ∧
    shape hidden_state = (3, 2) ∧ shape cell_state = (3, 2) ∧
    (∀ i, i < 3 → rows hidden_state !! i = Some [0; 0]%Z) ∧
    (∀ i, i < 3 → rows cell_state !! i = Some [0; 0]%Z).
Proof.
  exact (initial_states_broadcast demo_brick 3 [0; 0]%Z [0; 0]%Z
           eq_refl eq_refl).
Defined.

Lemma float_allocated : allocated float_brick.
Proof.
  do 6 eexists. split; [reflexivity|].
  repeat split; repeat constructor.
Defined.

Lemma float_valid :
  valid_step float_brick 2 float_inputs float_states float_cells.
Proof. repeat split; repeat constructor. Defined.

Lemma inner_apply_mask_zeros_finite_witness :
  ∃ r, inner_apply float_brick float_inputs float_states float_cells
         (Some (replicate 2 s0)) = Ok r ∧
       msim r.1.1.1.1 float_states ∧ msim r.1.1.1.2 float_cells.
Proof.
  eassert (inner_apply float_brick float_inputs float_states float_cells None
           = Ok (_, _, _, _, _)) as Hnone by (vm_compute; reflexivity).
  destruct (inner_apply_mask_zeros_finite float_brick 2 float_inputs
              float_states float_cells _ _ _ _ _ float_allocated float_valid
              Hnone)
    as (nh' & nc' & Hsome & Hh & Hc).
  - repeat constructor.
  - repeat constructor.
  - eexists. split; [exact Hsome|]. split; assumption.
Defined.

Lemma inner_apply_mask_ones_finite_witness :
  ∃ new_states new_cells in_gate forget_gate out_gate next_states next_cells,
    inner_apply float_brick float_inputs float_states float_cells None
    = Ok (new_states, new_cells, in_gate, forget_gate, out_gate) ∧
    inner_apply float_brick float_inputs float_states float_cells
      (Some (replicate 2 s1))
    = Ok (next_states, next_cells, in_gate, forget_gate, out_gate) ∧
    msim next_states new_states ∧ msim next_cells new_cells.
Proof.
  refine (inner_apply_mask_ones_finite float_brick 2 float_inputs
            float_states float_cells float_allocated float_valid _ _).
  - repeat constructor.
  - repeat constructor.
Defined.

Lemma inner_apply_width_witness :
  (∃ r, inner_apply demo_brick demo_inputs demo_states demo_cells
          (Some [1; 0]%Z) = Ok r)
  ∧ inner_apply demo_brick demo_inputs_narrow demo_states demo_cells None
    = Raise DimensionMismatch
  ∧ inner_apply demo_brick demo_inputs_column demo_states demo_cells None
    = Raise DimensionMismatch.
Proof.
  split; [|split].
  - apply (proj1 (inner_apply_width demo_brick 2 demo_inputs demo_states
                    demo_cells (Some [1; 0]%Z) demo_allocated)).
    + exact demo_valid.
    + reflexivity.
  - apply (proj1 (proj2 (inner_apply_width demo_brick 2 demo_inputs_narrow
                           demo_states demo_cells None demo_allocated))).
    + simpl. lia.
    + simpl. lia.
  - apply (proj2 (proj2 (inner_apply_width demo_brick 2 demo_inputs_column
                           demo_states demo_cells None demo_allocated))).
    + simpl. lia.
    + reflexivity.
Defined.


(** The phrase wins although both of its words have entries of their own. *)
Lemma test_dict_witness :
  get_definitions (concat (A:=list string))
    (load [ ("d", [["x"]]); ("c", [["y"]]); ("d c", [["a"; "b"]]) ]%string)
    "d c"
  = [["a"; "b"]]%string.
Proof.
  apply (proj2 (proj2 (proj2 (test_dict (concat (A:=list string)))))).
  reflexivity.
Defined.


(** The words do matter: a query that is no key, but one of whose words is,
    falls back to the definitions of that word. *)
Lemma get_definitions_word_fallback :
  load TEST_DICT_JSON !! "a x"%string = None ∧
  get_definitions (concat (A:=list string)) (load TEST_DICT_JSON) "a x"
  = [["b"; "c"]; ["d"; "e"]]%string.
Proof. split; reflexivity. Qed.

(** ** The further theorems at work on concrete bricks *)

Lemma demo_weights_init_preserving : shape_preserving demo_weights_init.
Proof.
  intros [v|m] rng; cbn.
  - by rewrite length_replicate.
  - unfold nrows, rect. cbn. rewrite length_replicate. split; [done|].
    apply Forall_replicate. apply length_replicate.
Defined.

Lemma demo_rect :
  rect demo_inputs ∧ rect demo_states ∧ rect demo_cells.
Proof. repeat split; repeat constructor. Defined.

(** Row 1 of the batch against the same example alone in a batch. *)
Lemma inner_apply_row_local_witness :
  ∃ nh nc ig fg og nh' nc' ig' fg' og',
    inner_apply demo_brick demo_inputs demo_states demo_cells (Some [1; 0]%Z)
    = Ok (nh, nc, ig, fg, og) ∧
    inner_apply demo_brick (Matrix 8 [[1; 0; -2; 0; 0; 3; 0; 1]]%Z)
      (Matrix 2 [[1; 1]]%Z) (Matrix 2 [[2; 0]]%Z) (Some [0]%Z)
    = Ok (nh', nc', ig', fg', og') ∧
    rows nh !! 1 = rows nh' !! 0 ∧ rows nc !! 1 = rows nc' !! 0 ∧
    rows ig !! 1 = rows ig' !! 0 ∧ rows fg !! 1 = rows fg' !! 0 ∧
    rows og !! 1 = rows og' !! 0.
Proof.
  apply (inner_apply_row_local demo_brick 2 1 demo_inputs demo_states
           demo_cells (Matrix 8 [[1; 0; -2; 0; 0; 3; 0; 1]]%Z)
           (Matrix 2 [[1; 1]]%Z) (Matrix 2 [[2; 0]]%Z)
           (Some [1; 0]%Z) (Some [0]%Z) 1 0 demo_allocated demo_valid).
  - repeat split; repeat constructor.
  - reflexivity.
  - reflexivity.
  - lia.
  - lia.
  - reflexivity.
  - reflexivity.
  - reflexivity.
  - reflexivity.
Defined.

Lemma demo_run_unmasked :
  inner_apply demo_brick demo_inputs demo_states demo_cells None
  = Ok (Matrix 2 [[0; 0]; [0; 1]], Matrix 2 [[2; 0]; [3; 1]],
        Matrix 2 [[1; 1]; [1; 1]], Matrix 2 [[1; 0]; [1; 1]],
        Matrix 2 [[0; 1]; [0; 1]])%Z.
Proof. vm_compute. reflexivity. Defined.

Lemma demo_run_masked :
  inner_apply demo_brick demo_inputs demo_states demo_cells (Some [1; 0]%Z)
  = Ok (Matrix 2 [[0; 0]; [1; 1]], Matrix 2 [[2; 0]; [2; 0]],
        Matrix 2 [[1; 1]; [1; 1]], Matrix 2 [[1; 0]; [1; 1]],
        Matrix 2 [[0; 1]; [0; 1]])%Z.
Proof. vm_compute. reflexivity. Defined.

Lemma inner_apply_mask_rows_finite_witness :
  (∀ j, j < 2 →
     mat_at (Matrix 2 [[0; 0]; [1; 1]]%Z) 1 j ≃ mat_at demo_states 1 j ∧
     mat_at (Matrix 2 [[2; 0]; [2; 0]]%Z) 1 j ≃ mat_at demo_cells 1 j)
  ∧ (∀ j, j < 2 →
       mat_at (Matrix 2 [[0; 0]; [1; 1]]%Z) 0 j
       ≃ mat_at (Matrix 2 [[0; 0]; [0; 1]]%Z) 0 j ∧
       mat_at (Matrix 2 [[2; 0]; [2; 0]]%Z) 0 j
       ≃ mat_at (Matrix 2 [[2; 0]; [3; 1]]%Z) 0 j).
Proof.
  split; intros j Hj.
  - apply (proj1 (inner_apply_mask_rows_finite demo_brick 2 demo_inputs
                    demo_states demo_cells [1; 0]%Z 1 _ _ _ _ _ _ _ _ _ _
                    demo_allocated demo_valid eq_refl (le_n 2)
                    demo_run_unmasked demo_run_masked));
      [reflexivity | done | exact Hj].
  - apply (proj2 (inner_apply_mask_rows_finite demo_brick 2 demo_inputs
                    demo_states demo_cells [1; 0]%Z 0 _ _ _ _ _ _ _ _ _ _
                    demo_allocated demo_valid eq_refl
                    (le_S 1 1 (le_n 1))
                    demo_run_unmasked demo_run_masked));
      [reflexivity | done | exact Hj].
Defined.

Lemma slice_last_chunks_witness :
  ∃ r0 r1 r2 r3,
    rows (slice_last demo_brick demo_inputs 0) !! 0 = Some r0 ∧
    rows (slice_last demo_brick demo_inputs 1) !! 0 = Some r1 ∧
    rows (slice_last demo_brick demo_inputs 2) !! 0 = Some r2 ∧
    rows (slice_last demo_brick demo_inputs 3) !! 0 = Some r3 ∧
    r0 ++ r1 ++ r2 ++ r3 = take 8 [0; 1; 0; -1; 1; 0; 2; 0]%Z ∧
    (length [0; 1; 0; -1; 1; 0; 2; 0]%Z = 8 →
     r0 ++ r1 ++ r2 ++ r3 = [0; 1; 0; -1; 1; 0; 2; 0]%Z ∧ length r0 = 2 ∧
     length r1 = 2 ∧ length r2 = 2 ∧ length r3 = 2).
Proof.
  exact (slice_last_chunks demo_brick demo_inputs 0
           [0; 1; 0; -1; 1; 0; 2; 0]%Z eq_refl).
Defined.

Lemma initialize_keeps_allocated_witness :
  allocated (_initialize demo_weights_init demo_brick 7%Z).1.
Proof.
  exact (proj1 (initialize_keeps_allocated demo_weights_init demo_brick 7%Z
                  demo_weights_init_preserving demo_allocated)).
Defined.

Lemma first_step_after_initialize_witness :
  ∃ hidden_state cell_state next_states next_cells in_gate forget_gate
    out_gate,
    initial_states
      (_initialize demo_weights_init (_allocate (init 2 None None)) 7%Z).1 2
    = Ok (hidden_state, cell_state) ∧
    inner_apply
      (_initialize demo_weights_init (_allocate (init 2 None None)) 7%Z).1
      demo_inputs hidden_state cell_state (Some [1; 0]%Z)
    = Ok (next_states, next_cells, in_gate, forget_gate, out_gate) ∧
    shape next_states = (2, 2) ∧ shape next_cells = (2, 2) ∧
    rect next_states ∧ rect next_cells.
Proof.
  exact (first_step_after_initialize demo_weights_init 2 None None 7%Z 2
           demo_inputs (Some [1; 0]%Z) demo_weights_init_preserving
           (proj1 demo_rect) eq_refl eq_refl).
Defined.

(** ** Why finiteness and the stretching of axes are in the statements *)

Ltac first_state_differs H :=
  apply (f_equal (λ r : result (matrix float * matrix float * matrix float
                                * matrix float * matrix float),
            match r with
            | Ok (Matrix _ ((x :: _) :: _), _, _, _, _) => Some (Prim2SF x)
            | _ => None
            end)) in H;
  vm_compute in H; discriminate H.

Lemma float_large_allocated : allocated float_brick_large.
Proof.
  do 6 eexists. split; [reflexivity|].
  repeat split; repeat constructor.
Defined.

Lemma float_large_valid :
  valid_step float_brick_large 1 float_inputs_one float_states_one
    float_cells_one.
Proof. repeat split; repeat constructor. Defined.

(** C4 without the finiteness of the new values fails on floats.  All
    weights and all entries of the batch are finite, yet the projection
    overflows, the new state is NaN, and with the all-zeros mask the step
    returns NaN, not the previous state 10. *)
Lemma inner_apply_mask_zeros_counterexample :
  allocated float_brick_large ∧
  valid_step float_brick_large 1 float_inputs_one float_states_one
    float_cells_one ∧
  (all_finite float_inputs_one ∧ all_finite float_states_one ∧
   all_finite float_cells_one) ∧
  ¬ ∃ in_gate forget_gate out_gate,
      inner_apply float_brick_large float_inputs_one float_states_one
        float_cells_one (Some (replicate 1 s0))
      = Ok (float_states_one, float_cells_one, in_gate, forget_gate,
            out_gate).
Proof.
  split; [exact float_large_allocated|].
  split; [exact float_large_valid|].
  split; [repeat split; repeat constructor|].
  intros (ig & fg & og & Hstep). first_state_differs Hstep.
Defined.

Lemma float_identity_allocated : allocated float_brick_identity.
Proof.
  do 6 eexists. split; [reflexivity|].
  repeat split; repeat constructor.
Defined.

Lemma float_identity_valid :
  valid_step float_brick_identity 1 float_inputs_ones float_states_inf
    float_cells_ones.
Proof. repeat split; repeat constructor. Defined.

(** C5 without the finiteness of the previous values fails on floats.
    With an infinite previous state the step without a mask returns the
    state infinity, the step with the all-ones mask returns NaN: the blend
    adds [(1 - 1) * infinity]. *)
Lemma inner_apply_mask_ones_counterexample :
  allocated float_brick_identity ∧
  valid_step float_brick_identity 1 float_inputs_ones float_states_inf
    float_cells_ones ∧
  inner_apply float_brick_identity float_inputs_ones float_states_inf
    float_cells_ones (Some (replicate 1 s1))
  ≠ inner_apply float_brick_identity float_inputs_ones float_states_inf
      float_cells_ones None.
Proof.
  split; [exact float_identity_allocated|].
  split; [exact float_identity_valid|].
  intros Hstep. first_state_differs Hstep.
Defined.

(** C9, read as a check of the width, fails where Theano stretches the
    axis.  The inputs are a column of width 1, not [4 * dim = 8]; the
    column is added to every column of the projection and the step returns
    a result. *)
Lemma inner_apply_width_check_counterexample :
  allocated demo_brick ∧
  ncols demo_inputs_column ≠ 4 * dim demo_brick ∧
  inner_apply (BC := flagged) demo_brick demo_inputs_column demo_states
    demo_cells None
  = Ok (Matrix 2 [[0; 1]; [0; 0]], Matrix 2 [[2; 1]; [2; 0]],
        Matrix 2 [[1; 1]; [1; 0]], Matrix 2 [[1; 0]; [1; 0]],
        Matrix 2 [[0; 1]; [0; 0]])%Z.
Proof.
  split; [exact demo_allocated|]. split; [simpl; lia|].
  vm_compute. reflexivity.
Defined.
